(** * Meadow: the SQL generator agent and the schema renamer agent

    A shallow embedding of [meadow/agent/data_agents/text2sql.py] and
    [meadow/agent/data_agents/schema_renamer.py].

    Python [str] values are modelled as [string]; each character stands for a
    code point below 256.  On that range the regular-expression class [\d] is
    the ten ASCII digits, and the white space removed by [str.strip()] is the
    set given by [is_space] below.  Python exceptions are values of type
    [Exception]; a computation that may raise returns an [Exc]. *)

From Stdlib Require Import Strings.String Strings.Ascii Lists.List Arith.Arith
  NArith.NArith Bool.Bool micromega.Lia Numbers.DecimalString.
Import ListNotations.
Local Open Scope list_scope.
Local Open Scope string_scope.
Local Open Scope nat_scope.

(** ** Exceptions *)

Inductive Exception : Type :=
| ValueError (msg : string)
| AttributeError (msg : string)
| IndexError (msg : string)
| JSONDecodeError (msg : string)
| InvalidRemapError (msg : string)
| LibraryError (msg : string).

(** [str(e)] *)
Definition exception_str (e : Exception) : string :=
  match e with
  | ValueError msg | AttributeError msg | IndexError msg
  | JSONDecodeError msg | InvalidRemapError msg | LibraryError msg => msg
  end.

Inductive Exc (A : Type) : Type :=
| Returned (a : A)
| Raised (e : Exception).
Arguments Returned {A} a.
Arguments Raised {A} e.

Definition exc_bind {A B : Type} (m : Exc A) (k : A -> Exc B) : Exc B :=
  match m with
  | Returned a => k a
  | Raised e => Raised e
  end.

(** [try: body except Exception as e: handler e] *)
Definition try_except {A : Type} (body : Exc A) (handler : Exception -> Exc A) : Exc A :=
  match body with
  | Returned a => Returned a
  | Raised e => handler e
  end.

(** ** Python string primitives *)

Module PyStr.

Definition is_digit (c : ascii) : bool :=
  let n := nat_of_ascii c in (48 <=? n) && (n <=? 57).

(** White space in the sense of [str.strip()], for code points below 256. *)
Definition is_space (c : ascii) : bool :=
  let n := nat_of_ascii c in
  ((9 <=? n) && (n <=? 13)) || ((28 <=? n) && (n <=? 32))
  || (n =? 133) || (n =? 160).

Fixpoint drop (n : nat) (s : string) : string :=
  match n, s with
  | S k, String _ s' => drop k s'
  | _, _ => s
  end.

Fixpoint take (n : nat) (s : string) : string :=
  match n, s with
  | S k, String c s' => String c (take k s')
  | _, _ => EmptyString
  end.

Fixpoint removelast (s : string) : string :=
  match s with
  | EmptyString => EmptyString
  | String c EmptyString => EmptyString
  | String c s' => String c (removelast s')
  end.

(** [s[1:-1]] *)
Definition slice_1_m1 (s : string) : string := removelast (drop 1 s).

(** [sub in s] *)
Fixpoint contains (sub s : string) : bool :=
  if prefix sub s then true
  else match s with
       | EmptyString => false
       | String _ s' => contains sub s'
       end.

Fixpoint lstrip (s : string) : string :=
  match s with
  | String c s' => if is_space c then lstrip s' else s
  | EmptyString => EmptyString
  end.

Fixpoint rstrip (s : string) : string :=
  match s with
  | EmptyString => EmptyString
  | String c s' =>
      match rstrip s' with
      | EmptyString => if is_space c then EmptyString else String c EmptyString
      | r => String c r
      end
  end.

(** [s.strip()] *)
Definition strip (s : string) : string := rstrip (lstrip s).

(** [s.replace(old, new)] for a non-empty [old]: the occurrences of [old]
    are found from left to right and do not overlap; [skip] counts the
    characters of an occurrence that are still to be passed over. *)
Fixpoint replace_from (old new s : string) (skip : nat) : string :=
  match s with
  | EmptyString => EmptyString
  | String c s' =>
      match skip with
      | S k => replace_from old new s' k
      | O =>
          if prefix old s
          then new ++ replace_from old new s' (String.length old - 1)
          else String c (replace_from old new s' 0)
      end
  end.

(** With an empty [old], Python puts [new] before every character and at
    the end. *)
Fixpoint intersperse (new s : string) : string :=
  match s with
  | EmptyString => new
  | String c s' => new ++ String c (intersperse new s')
  end.

Definition replace (old new s : string) : string :=
  match old with
  | EmptyString => intersperse new s
  | _ => replace_from old new s 0
  end.

(** The value of a string of decimal digits, most significant first. *)
Fixpoint digits_value (acc : N) (s : string) : option N :=
  match s with
  | EmptyString => Some acc
  | String c s' =>
      if is_digit c
      then digits_value (10 * acc + N.of_nat (nat_of_ascii c - 48)) s'
      else None
  end.

(** The length of the run of decimal digits at the head of [s]. *)
Fixpoint leading_digits (s : string) : nat :=
  match s with
  | String c s' => if is_digit c then S (leading_digits s') else 0
  | EmptyString => 0
  end.

(** [sys.get_int_max_str_digits()], as the interpreter sets it. *)
Definition int_max_str_digits : nat := 4300.

(** [str(n)] for a natural number. *)
Definition decimal (n : nat) : string := NilEmpty.string_of_uint (Nat.to_uint n).

(** [int(s)] on the strings this program passes to it.  A run of more than
    [int_max_str_digits] digits, leading zeros counted, is refused with a
    [ValueError]; otherwise a non-empty string of decimal digits has its
    value, and anything else is a [ValueError].  (Signs, underscores and
    surrounding blanks are not modelled: the keys come from the pattern
    [sql\d+].) *)
Definition int (s : string) : Exc N :=
  if int_max_str_digits <? leading_digits s then
    Raised (ValueError
              ("Exceeds the limit (4300 digits) for integer string conversion: value has "
               ++ decimal (leading_digits s)
               ++ " digits; use sys.set_int_max_str_digits() to increase the limit"))
  else
    match s with
    | EmptyString => Raised (ValueError "invalid literal for int() with base 10")
    | _ =>
        match digits_value 0 s with
        | Some n => Returned n
        | None => Raised (ValueError "invalid literal for int() with base 10")
        end
    end.

End PyStr.

(** ** The regular expressions of [text2sql.py] *)

Module Regex.
Import PyStr.

(** The length of the longest run of digits at the head of [s]: [\d+] is
    greedy, and giving digits back never helps since [>] is not a digit. *)
Fixpoint count_digits (s : string) : nat :=
  match s with
  | String c s' => if is_digit c then S (count_digits s') else 0
  | EmptyString => 0
  end.

(** [lit \d+ >] matched at the head of [s]; the result is the length of the
    match. *)
Definition match_tag (lit s : string) : option nat :=
  if prefix lit s then
    let r := drop (String.length lit) s in
    let n := count_digits r in
    if (0 <? n) && prefix ">" (drop n r)
    then Some (String.length lit + n + 1)
    else None
  else None.

(** [<sql\d+>] at the head of [s]. *)
Definition match_open_tag (s : string) : option nat := match_tag "<sql" s.

(** [<\/sql\d+>] at the head of [s]. *)
Definition match_close_tag (s : string) : option nat := match_tag "</sql" s.

(** The lazy [(.*?)] followed by the closing tag, under [re.DOTALL]: the
    least [j] such that the closing tag matches at [s[j:]], with the length
    of that closing tag. *)
Fixpoint lazy_body (s : string) : option (nat * nat) :=
  match match_close_tag s with
  | Some m => Some (0, m)
  | None =>
      match s with
      | EmptyString => None
      | String _ s' =>
          match lazy_body s' with
          | Some (j, m) => Some (S j, m)
          | None => None
          end
      end
  end.

(** [(<sql\d+>(.*?)<\/sql\d+>)] at the head of [s]: the two groups. *)
Definition match_component (s : string) : option (string * string) :=
  match match_open_tag s with
  | Some n =>
      match lazy_body (drop n s) with
      | Some (j, m) => Some (take (n + j + m) s, take j (drop n s))
      | None => None
      end
  | None => None
  end.

(** [re.findall(r"(<sql\d+>(.*?)<\/sql\d+>)", s, re.DOTALL)]: the matches
    from left to right, each search starting where the previous match
    ended. *)
Fixpoint findall_components_from (s : string) (skip : nat) : list (string * string) :=
  match s with
  | EmptyString => []
  | String _ s' =>
      match skip with
      | S k => findall_components_from s' k
      | O =>
          match match_component s with
          | Some (whole, body) =>
              (whole, body) :: findall_components_from s' (String.length whole - 1)
          | None => findall_components_from s' 0
          end
      end
  end.

Definition findall_components (s : string) : list (string * string) :=
  findall_components_from s 0.

(** [re.search(r"<(sql\d+)>", s)]: group 1 of the leftmost match. *)
Fixpoint search_tag_name (s : string) : option string :=
  match match_open_tag s with
  | Some n => Some (take (n - 2) (drop 1 s))
  | None =>
      match s with
      | EmptyString => None
      | String _ s' => search_tag_name s'
      end
  end.

(** [\({0,1}<sql\d+>\){0,1}] at the head of [s].  Both optional
    parentheses are greedy; when the attempt that takes the opening
    parenthesis fails, the attempt without it is made at the same place. *)
Definition match_reference (s : string) : option nat :=
  let attempt (lp : nat) (r : string) :=
    match match_open_tag r with
    | Some n => Some (lp + n + (if prefix ")" (drop n r) then 1 else 0))
    | None => None
    end in
  match s with
  | String "("%char s' =>
      match attempt 1 s' with
      | Some n => Some n
      | None => attempt 0 s
      end
  | _ => attempt 0 s
  end.

(** [re.findall(r"\({0,1}<sql\d+>\){0,1}", s)] *)
Fixpoint findall_references_from (s : string) (skip : nat) : list string :=
  match s with
  | EmptyString => []
  | String _ s' =>
      match skip with
      | S k => findall_references_from s' k
      | O =>
          match match_reference s with
          | Some n => take n s :: findall_references_from s' (n - 1)
          | None => findall_references_from s' 0
          end
      end
  end.

Definition findall_references (s : string) : list string :=
  findall_references_from s 0.

End Regex.

(** [l[-1]], when there is one *)
Fixpoint last_item {A : Type} (l : list A) : option A :=
  match l with
  | [] => None
  | [x] => Some x
  | _ :: l' => last_item l'
  end.

(** ** Python dictionaries, in insertion order *)

Module PyDict.

Definition dict (V : Type) : Type := list (string * V).

Fixpoint get {V : Type} (d : dict V) (k : string) : option V :=
  match d with
  | [] => None
  | (k', v) :: d' => if String.eqb k' k then Some v else get d' k
  end.

(** [d[k] = v]: an existing key keeps its place, a new key goes last. *)
Fixpoint set {V : Type} (d : dict V) (k : string) (v : V) : dict V :=
  match d with
  | [] => [(k, v)]
  | (k', v') :: d' =>
      if String.eqb k' k then (k', v) :: d' else (k', v') :: set d' k v
  end.

Definition keys {V : Type} (d : dict V) : list string := map fst d.
Definition values {V : Type} (d : dict V) : list V := map snd d.

End PyDict.

(** ** [text2sql.py]: the functions on text *)

Import PyStr Regex.

(** [replace_tag_with_table] *)
Definition replace_tag_with_table (sql : string) : string :=
  let sql_tags := findall_references sql in
  fold_left
    (fun sql tag => replace tag ("(SELECT * FROM " ++ slice_1_m1 tag ++ ")") sql)
    sql_tags sql.

(** The body of the loop of [parse_sqls]. *)
Definition parse_sqls_step (sql_dict : PyDict.dict string) (sql_pair : string * string)
  : PyDict.dict string :=
  let '(sql_with_tag, sql) := sql_pair in
  match search_tag_name sql_with_tag with
  | Some name => PyDict.set sql_dict name (strip (replace ";" "" sql))
  | None => sql_dict
  end.

(** [parse_sqls] *)
Definition parse_sqls (message : string) : Exc (PyDict.dict string) :=
  let sql_components := findall_components message in
  match sql_components with
  | [] => Raised (ValueError "SQL not found in the response.")
  | _ => Returned (fold_left parse_sqls_step sql_components [])
  end.

(** [s] with every occurrence of the character [c] taken out. *)
Fixpoint remove_char (c : ascii) (s : string) : string :=
  match s with
  | EmptyString => EmptyString
  | String a s' =>
      if Ascii.eqb a c then remove_char c s' else String a (remove_char c s')
  end.

Fixpoint all_digits (s : string) : bool :=
  match s with
  | EmptyString => true
  | String c s' => is_digit c && all_digits s'
  end.

(** The last character of [s], when there is one. *)
Fixpoint last_char (s : string) : option ascii :=
  match s with
  | EmptyString => None
  | String c EmptyString => Some c
  | String _ s' => last_char s'
  end.

(** A tag name: [sql] followed by one digit or more. *)
Definition is_tag (k : string) : Prop :=
  exists ds : string, k = "sql" ++ ds /\ all_digits ds = true /\ ds <> EmptyString.

(** Following the words of the specification, to be compared with what
    [parse_sqls] does: "strip a single trailing statement terminator and
    surrounding whitespace"; a semicolon elsewhere stays. *)
Definition spec_strip_terminator (body : string) : string :=
  let s := strip body in
  match last_char s with
  | Some ";"%char => strip (removelast s)
  | _ => s
  end.

(** An entry of the dictionary comes from a matched component: its key is
    the name found in the component, its value the body without its
    semicolons and stripped. *)
Definition from_components (comps : list (string * string)) (d : PyDict.dict string)
  : Prop :=
  forall k v : string,
    PyDict.get d k = Some v ->
    exists whole body : string,
      In (whole, body) comps
      /\ search_tag_name whole = Some k
      /\ v = strip (remove_char ";" body).

(** [max(keys, key=lambda x: int(x[3:]))]: the first key, in iteration
    order, whose suffix has the greatest value. *)
Fixpoint max_from (best : string) (best_key : N) (rest : list string) : Exc string :=
  match rest with
  | [] => Returned best
  | x :: rest' =>
      match int (drop 3 x) with
      | Raised e => Raised e
      | Returned n =>
          if (best_key <? n)%N then max_from x n rest' else max_from best best_key rest'
      end
  end.

Definition largest_key (keys : list string) : Exc string :=
  match keys with
  | [] => Raised (ValueError "max() arg is an empty sequence")
  | x :: rest =>
      match int (drop 3 x) with
      | Raised e => Raised e
      | Returned n => max_from x n rest
      end
  end.

(** ** Agent messages *)

(** Modelled from the spec: the declaration of [AgentMessage]
    ([meadow/agent/schema.py]) is not among the sources.  The fields are
    those the two agents set; an argument left out of a constructor call is
    [None] or [False]. *)
Record AgentMessage : Type := {
  role : string;
  content : string;
  display_content : option string;
  tool_calls : option (list string);
  generating_agent : option string;
  sending_agent : option string;
  receiving_agent : option string;
  is_termination_message : bool;
  requires_response : bool;
  requires_execution : bool
}.

Definition new_message (role content : string) : AgentMessage :=
  {| role := role; content := content; display_content := None;
     tool_calls := None; generating_agent := None; sending_agent := None;
     receiving_agent := None; is_termination_message := false;
     requires_response := false; requires_execution := false |}.

Definition nl : string := String (ascii_of_nat 10) EmptyString.

(** Modelled from the spec: [has_termination_condition]
    ([meadow/agent/utils.py]) is not among the sources.  The termination
    token is "a single literal string recognized verbatim anywhere in a
    generating agent's output". *)
Definition has_termination_condition (content termination_message : string) : bool :=
  contains termination_message content.

(** ** The SQL generator agent *)

(** What [text2sql.py] uses of the database object
    ([meadow/database/database.py], not among the sources).  A method that
    may raise returns the store it leaves together with its outcome; the
    tables found under a tag are views, whose [view_sql] is a string. *)
Class ViewStore (D : Type) : Type := {
  Table : Type;
  DataFrame : Type;
  get_table : D -> string -> option Table;
  view_sql : Table -> string;
  normalize_query : D -> string -> Exc string;
  add_view : D -> string -> string -> Exc unit * D;
  run_sql_to_df : D -> string -> Exc DataFrame;
  df_head : nat -> DataFrame -> DataFrame;
  df_to_string : DataFrame -> string
}.

Record SQLGeneratorAgent : Type := {
  sql_termination_message : string;
  sql_silent : bool
}.

Definition sql_agent_name : string := "SQLGenerator".

Section SQLGenerator.

Context {D : Type} `{ViewStore D}.

(** [sqlglot.parse_one(sql, dialect="duckdb").sql(dialect="duckdb", pretty=True)] *)
Variable sqlglot_pretty : string -> Exc string.

(** The completion service: the text of the first choice, for the history
    handed over and the system message made from the current tables. *)
Variable generate_llm_reply : D -> list AgentMessage -> string.

(** [prettify_sql] *)
Definition prettify_sql (sql : string) : Exc string :=
  try_except (sqlglot_pretty sql) (fun _ => Returned sql).

(** One turn of the loop over [sql_dict.items()].  For a registered tag
    the source compares [v] with the view's SQL only to print a notice, and
    goes on to the next fragment. *)
Definition register_fragment (db : D) (kv : string * string) : Exc unit * D :=
  let '(k, v) := kv in
  match get_table db k with
  | Some view_table => (Returned tt, db)
  | None =>
      let v := replace_tag_with_table v in
      match normalize_query db v with
      | Raised e => (Raised e, db)
      | Returned v => add_view db k v
      end
  end.

Fixpoint register_fragments (db : D) (items : list (string * string)) : Exc unit * D :=
  match items with
  | [] => (Returned tt, db)
  | kv :: rest =>
      match register_fragment db kv with
      | (Returned _, db') => register_fragments db' rest
      | (Raised e, db') => (Raised e, db')
      end
  end.

(** The message returned for the view registered under [largest_k]. *)
Definition result_message (db : D) (content : string) (view_table : Table)
  : Exc AgentMessage :=
  exc_bind (prettify_sql (view_sql view_table)) (fun last_sql =>
    let last_sql_df :=
      try_except
        (exc_bind (run_sql_to_df db last_sql) (fun df => Returned (Some (df_head 5 df))))
        (fun _ => Returned None) in
    exc_bind last_sql_df (fun last_sql_df =>
      let user_content := "SQL:" ++ nl ++ last_sql in
      let user_content :=
        match last_sql_df with
        | Some df => user_content ++ nl ++ nl ++ "Table:" ++ nl ++ df_to_string df
        | None => user_content
        end in
      Returned {| role := "assistant"; content := content;
                  display_content := Some user_content; tool_calls := None;
                  generating_agent := Some sql_agent_name; sending_agent := None;
                  receiving_agent := None; is_termination_message := false;
                  requires_response := false; requires_execution := false |})).

(** [SQLGeneratorAgent.generate_reply] *)
Definition sql_generate_reply (self : SQLGeneratorAgent) (db : D)
  (messages : list AgentMessage) : Exc AgentMessage * D :=
  let content := generate_llm_reply db messages in
  if has_termination_condition content (sql_termination_message self) then
    (Returned {| role := "assistant"; content := content;
                 display_content := None; tool_calls := None;
                 generating_agent := Some sql_agent_name; sending_agent := None;
                 receiving_agent := None; is_termination_message := true;
                 requires_response := false; requires_execution := false |}, db)
  else
    match parse_sqls content with
    | Raised e => (Raised e, db)
    | Returned sql_dict =>
        match largest_key (PyDict.keys sql_dict) with
        | Raised e => (Raised e, db)
        | Returned largest_k =>
            match register_fragments db sql_dict with
            | (Raised e, db') => (Raised e, db')
            | (Returned _, db') =>
                match get_table db' largest_k with
                | None =>
                    (Raised (AttributeError
                       "'NoneType' object has no attribute 'view_sql'"), db')
                | Some view_table => (result_message db' content view_table, db')
                end
            end
        end
    end.

End SQLGenerator.

(** ** [schema_renamer.py] *)

Module Fence.
Import PyStr.

Definition fence_open : string := "```json" ++ nl.
Definition fence_close : string := nl ++ "```".

(** The lazy [(.*?)] followed by the closing fence: the least [j] such that
    the closing fence is at [s[j:]]. *)
Fixpoint lazy_until (close s : string) : option nat :=
  if prefix close s then Some 0
  else match s with
       | EmptyString => None
       | String _ s' =>
           match lazy_until close s' with
           | Some j => Some (S j)
           | None => None
           end
       end.

(** The fenced-block pattern at the head of [s]: the length of the match
    and its group. *)
Definition match_fence (s : string) : option (nat * string) :=
  if prefix fence_open s then
    let r := drop (String.length fence_open) s in
    match lazy_until fence_close r with
    | Some j =>
        Some (String.length fence_open + j + String.length fence_close, take j r)
    | None => None
    end
  else None.

(** [re.findall] of the fenced-block pattern, under [re.DOTALL]. *)
Fixpoint findall_fences_from (s : string) (skip : nat) : list string :=
  match s with
  | EmptyString => []
  | String _ s' =>
      match skip with
      | S k => findall_fences_from s' k
      | O =>
          match match_fence s with
          | Some (n, body) => body :: findall_fences_from s' (n - 1)
          | None => findall_fences_from s' 0
          end
      end
  end.

Definition findall_fences (s : string) : list string := findall_fences_from s 0.

End Fence.

(** A column mapping and a remap payload, as the source annotates the
    decoded content: [dict[str, dict[str, str]]]. *)
Definition ColMap : Type := PyDict.dict string.
Definition Payload : Type := PyDict.dict ColMap.

(** The variable [content] of [parse_rename_and_update_db] holds the text
    of the last message until [json.loads] has returned, and the decoded
    object from then on. *)
Inductive Content : Type :=
| ContentStr (s : string)
| ContentDict (d : Payload).

(** [content.items()] *)
Definition content_items (c : Content) : Exc (list (string * ColMap)) :=
  match c with
  | ContentDict d => Returned d
  | ContentStr _ => Raised (AttributeError "'str' object has no attribute 'items'")
  end.

(** What [schema_renamer.py] uses of the database object and of
    [get_non_matching_fks] ([meadow/database/database.py], not among the
    sources). *)
Class RemapStore (D : Type) : Type := {
  BaseTable : Type;
  FKPair : Type;
  add_base_table_column_remap : D -> string -> ColMap -> Exc unit * D;
  remove_base_table_remaps : D -> D;
  tables : D -> list BaseTable;
  table_name : BaseTable -> string;
  get_non_matching_fks : PyDict.dict BaseTable -> list FKPair;
  repr_fk_pairs : list FKPair -> string
}.

(** [len(set(l))] *)
Definition set_size (l : list string) : nat := List.length (nodup string_dec l).

(** The inner loop of the duplicate search: the first value that is already
    in [duplicate_values]. *)
Fixpoint first_repeated (vals : list string) (duplicate_values : list string)
  : option string :=
  match vals with
  | [] => None
  | value :: rest =>
      if in_dec string_dec value duplicate_values then Some value
      else first_repeated rest (value :: duplicate_values)
  end.

(** One turn of the first loop over [content.items()]. *)
Definition check_duplicates (error_message : option string) (item : string * ColMap)
  : option string :=
  let '(tbl, col_map) := item in
  if negb (set_size (PyDict.values col_map) =? List.length (PyDict.values col_map)) then
    match first_repeated (PyDict.values col_map) [] with
    | Some value =>
        Some ("Duplicate column name '" ++ value ++ "' found in table '" ++ tbl ++ "'.")
    | None => error_message
    end
  else error_message.

(** The text of the duplicate error. *)
Definition duplicate_message (tbl value : string) : string :=
  "Duplicate column name '" ++ value ++ "' found in table '" ++ tbl ++ "'.".

(** [error] names a value that occurs twice among the targets of a table of
    [payload]. *)
Definition names_duplicate (payload : Payload) (error : option string) : Prop :=
  exists (tbl : string) (col_map : ColMap) (value : string),
    In (tbl, col_map) payload
    /\ 1 < count_occ string_dec (PyDict.values col_map) value
    /\ error = Some (duplicate_message tbl value).

Definition renamer_agent_name : string := "SchemaRenamer".

Section SchemaRenamer.

Context {D : Type} `{RemapStore D}.

(** [json.loads]: the decoded payload, or the [JSONDecodeError] raised. *)
Variable json_loads : string -> Exc Payload.

(** The second loop over [content.items()]: the error message it leaves
    and the store. *)
Fixpoint apply_remaps (db : D) (items : list (string * ColMap)) : option string * D :=
  match items with
  | [] => (None, db)
  | (table_name, column_mapping) :: rest =>
      if existsb (fun kv => negb (String.eqb (fst kv) (snd kv))) column_mapping then
        match add_base_table_column_remap db table_name column_mapping with
        | (Returned _, db') => apply_remaps db' rest
        | (Raised e, db') =>
            (Some ("Error adding the column remapping for table " ++ table_name
                   ++ "." ++ nl ++ exception_str e), db')
        end
      else apply_remaps db rest
  end.

(** [{tbl.name: tbl for tbl in database.tables}] *)
Definition table_as_dict (db : D) : PyDict.dict BaseTable :=
  fold_left (fun d tbl => PyDict.set d (table_name tbl) tbl) (tables db) [].

(** The foreign-key check. *)
Definition check_fks (db : D) : option string :=
  let non_match_pairs := get_non_matching_fks (table_as_dict db) in
  match non_match_pairs with
  | [] => None
  | _ =>
      Some ("The following FKs do not match:" ++ nl ++ repr_fk_pairs non_match_pairs
            ++ nl ++ "This may be ineviatable and"
            ++ " if so, do not worry about changing anything and output the same remapping. Otherwise, please rename.")
  end.

(** The text handed to [json.loads]. *)
Definition json_content_of (content : string) : Exc string :=
  if PyStr.contains "```json" content then
    match last_item (Fence.findall_fences content) with
    | Some block => Returned block
    | None => Raised (IndexError "list index out of range")
    end
  else Returned content.

(** The [try] statement: the value of [content] and of [error_message]
    after it.  Only [json.JSONDecodeError] is caught. *)
Definition decode_content (content : string) : Exc (Content * option string) :=
  match exc_bind (json_content_of content) json_loads with
  | Returned d => Returned (ContentDict d, None)
  | Raised (JSONDecodeError e) =>
      Returned (ContentStr content,
                Some ("The content is not a valid JSON object." ++ nl ++ e))
  | Raised e => Raised e
  end.

(** [parse_rename_and_update_db] *)
Definition parse_rename_and_update_db (messages : list AgentMessage)
  (agent_name : string) (db : D) (can_reask_again : bool) : Exc AgentMessage * D :=
  match last_item messages with
  | None => (Raised (IndexError "list index out of range"), db)
  | Some last_message =>
      match decode_content (content last_message) with
      | Raised e => (Raised e, db)
      | Returned (content, error_message) =>
          match content_items content with
          | Raised e => (Raised e, db)
          | Returned items =>
              let error_message := fold_left check_duplicates items error_message in
              let '(error_message, db) :=
                match error_message with
                | None => apply_remaps db items
                | Some _ => (error_message, db)
                end in
              let error_message :=
                match error_message with
                | None => check_fks db
                | Some _ => error_message
                end in
              match error_message with
              | Some error_message =>
                  let db := remove_base_table_remaps db in
                  (Returned {| role := "assistant";
                               content := error_message ++ " Please regenerate mapping and try again.";
                               display_content := None; tool_calls := None;
                               generating_agent := None;
                               sending_agent := Some agent_name;
                               receiving_agent := None;
                               is_termination_message := false;
                               requires_response := true;
                               requires_execution := false |}, db)
              | None =>
                  (Returned {| role := "assistant";
                               content := "The schema has been updated.";
                               display_content := None; tool_calls := None;
                               generating_agent := None;
                               sending_agent := Some agent_name;
                               receiving_agent := None;
                               is_termination_message := false;
                               requires_response := false;
                               requires_execution := false |}, db)
              end
          end
      end
  end.

End SchemaRenamer.

(** ** Message histories and the agents' operations *)

Definition set_role (r : string) (m : AgentMessage) : AgentMessage :=
  {| role := r; content := content m; display_content := display_content m;
     tool_calls := tool_calls m; generating_agent := generating_agent m;
     sending_agent := sending_agent m; receiving_agent := receiving_agent m;
     is_termination_message := is_termination_message m;
     requires_response := requires_response m;
     requires_execution := requires_execution m |}.

Definition set_content (c : string) (m : AgentMessage) : AgentMessage :=
  {| role := role m; content := c; display_content := display_content m;
     tool_calls := tool_calls m; generating_agent := generating_agent m;
     sending_agent := sending_agent m; receiving_agent := receiving_agent m;
     is_termination_message := is_termination_message m;
     requires_response := requires_response m;
     requires_execution := requires_execution m |}.

Definition set_receiving_agent (a : string) (m : AgentMessage) : AgentMessage :=
  {| role := role m; content := content m; display_content := display_content m;
     tool_calls := tool_calls m; generating_agent := generating_agent m;
     sending_agent := sending_agent m; receiving_agent := Some a;
     is_termination_message := is_termination_message m;
     requires_response := requires_response m;
     requires_execution := requires_execution m |}.

(** Modelled from the spec: [MessageHistory]
    ([meadow/history/message_history.py]) is not among the sources.  It
    holds, "for each communication partner, an ordered, append-only sequence
    of exchanged messages"; a message is "passed by value" into it, here
    under the role given to [add_message]; [get_messages] hands the
    partner's sequence itself to the owning agent.  Partners are named. *)
Definition MessageHistory : Type := PyDict.dict (list AgentMessage).

Definition get_messages (h : MessageHistory) (agent : string) : list AgentMessage :=
  match PyDict.get h agent with
  | Some log => log
  | None => []
  end.

Definition add_message (h : MessageHistory) (agent role : string) (message : AgentMessage)
  : MessageHistory :=
  PyDict.set h agent (get_messages h agent ++ [set_role role message])%list.

(** The partner's sequence is an object of the history: a list obtained
    from [get_messages] and changed in place is changed there. *)
Definition write_back (h : MessageHistory) (agent : string) (log : list AgentMessage)
  : MessageHistory :=
  match PyDict.get h agent with
  | Some _ => PyDict.set h agent log
  | None => h
  end.

(** Append-only: the new sequence is the old one with messages added at
    its end. *)
Definition extends (old new : list AgentMessage) : Prop :=
  exists added : list AgentMessage, new = (old ++ added)%list.

(** [m'] is [m] but for its content. *)
Definition same_but_content (m m' : AgentMessage) : Prop :=
  m' = set_content (content m') m.

(** Append-only but for the content of the first message. *)
Definition extends_but_first_content (old new : list AgentMessage) : Prop :=
  match old, new with
  | [], _ => True
  | m :: rest, m' :: rest' => same_but_content m m' /\ extends rest rest'
  | _ :: _, [] => False
  end.

(** The state an agent works on: its history and the database it refers to. *)
Record AgentState (D : Type) : Type := {
  history : MessageHistory;
  database : D
}.
Arguments history {D} _.
Arguments database {D} _.

Section SQLGeneratorOperations.

Context {D : Type} `{ViewStore D}.
Variable sqlglot_pretty : string -> Exc string.
Variable generate_llm_reply : D -> list AgentMessage -> string.
Variable self : SQLGeneratorAgent.

(** [SQLGeneratorAgent.send], up to the call of [recipient.receive]. *)
Definition sql_send (st : AgentState D) (message : option AgentMessage)
  (recipient : string) : Exc unit * AgentState D :=
  match message with
  | None => (Raised (ValueError "Message is empty"), st)
  | Some message =>
      (Returned tt,
       {| history := add_message (history st) recipient "assistant" message;
          database := database st |})
  end.

(** [SQLGeneratorAgent.receive], up to the call of [recipient.receive]
    made by the final [send]. *)
Definition sql_receive (st : AgentState D) (message : AgentMessage) (sender : string)
  : Exc unit * AgentState D :=
  let h := add_message (history st) sender "user" message in
  match sql_generate_reply sqlglot_pretty generate_llm_reply self (database st)
          (get_messages h sender) with
  | (Raised e, db) => (Raised e, {| history := h; database := db |})
  | (Returned reply, db) =>
      sql_send {| history := h; database := db |} (Some reply) sender
  end.

Inductive SQLOperation : Type :=
| SQLSend (message : option AgentMessage) (recipient : string)
| SQLReceive (message : AgentMessage) (sender : string)
| SQLGenerateReply (messages : list AgentMessage) (sender : string).

(** The state an operation leaves, whether it returns or raises. *)
Definition sql_run (st : AgentState D) (op : SQLOperation) : AgentState D :=
  match op with
  | SQLSend message recipient => snd (sql_send st message recipient)
  | SQLReceive message sender => snd (sql_receive st message sender)
  | SQLGenerateReply messages sender =>
      {| history := history st;
         database := snd (sql_generate_reply sqlglot_pretty generate_llm_reply self
                            (database st) messages) |}
  end.

End SQLGeneratorOperations.

Section SchemaRenamerOperations.

Context {D : Type} `{RemapStore D}.
Variable serialize_as_list : list BaseTable -> string.
Variable generate_llm_reply : list AgentMessage -> string.

(** [messages[0].content = c] *)
Definition set_first_content (c : string) (messages : list AgentMessage)
  : Exc (list AgentMessage) :=
  match messages with
  | [] => Raised (IndexError "list index out of range")
  | m :: rest => Returned (set_content c m :: rest)
  end.

(** [SchemaRenamerAgent.generate_reply]: the reply, and the list [messages]
    as the call leaves it. *)
Definition renamer_generate_reply (db : D) (messages : list AgentMessage)
  : Exc AgentMessage * list AgentMessage :=
  match set_first_content ("My schema is" ++ nl ++ serialize_as_list (tables db))
          messages with
  | Raised e => (Raised e, messages)
  | Returned messages =>
      let content := generate_llm_reply messages in
      (Returned {| role := "assistant"; content := content;
                   display_content := None; tool_calls := None;
                   generating_agent := None;
                   sending_agent := Some renamer_agent_name;
                   receiving_agent := None; is_termination_message := false;
                   requires_response := false; requires_execution := true |},
       messages)
  end.

(** [SchemaRenamerAgent.send], up to the call of [recipient.receive]. *)
Definition renamer_send (st : AgentState D) (message : option AgentMessage)
  (recipient : string) : Exc unit * AgentState D :=
  match message with
  | None => (Raised (ValueError "Message is empty"), st)
  | Some message =>
      let message := set_receiving_agent recipient message in
      (Returned tt,
       {| history := add_message (history st) recipient "assistant" message;
          database := database st |})
  end.

(** [SchemaRenamerAgent.receive], up to the call of [recipient.receive]
    made by the final [send].  The list handed to [generate_reply] is the
    sender's sequence of the history itself, so what [generate_reply] writes
    into it is written into the history. *)
Definition renamer_receive (st : AgentState D) (message : AgentMessage) (sender : string)
  : Exc unit * AgentState D :=
  let h := add_message (history st) sender "user" message in
  let '(reply, messages) := renamer_generate_reply (database st) (get_messages h sender) in
  let h := write_back h sender messages in
  match reply with
  | Raised e => (Raised e, {| history := h; database := database st |})
  | Returned reply =>
      renamer_send {| history := h; database := database st |} (Some reply) sender
  end.

Inductive RenamerOperation : Type :=
| RenamerSend (message : option AgentMessage) (recipient : string)
| RenamerReceive (message : AgentMessage) (sender : string)
| RenamerGenerateReply (sender : string).

(** The state an operation leaves, whether it returns or raises;
    [RenamerGenerateReply sender] is [generate_reply] on the sender's
    sequence of the history, as [receive] calls it. *)
Definition renamer_run (st : AgentState D) (op : RenamerOperation) : AgentState D :=
  match op with
  | RenamerSend message recipient => snd (renamer_send st message recipient)
  | RenamerReceive message sender => snd (renamer_receive st message sender)
  | RenamerGenerateReply sender =>
      {| history :=
           write_back (history st) sender
             (snd (renamer_generate_reply (database st) (get_messages (history st) sender)));
         database := database st |}
  end.

End SchemaRenamerOperations.

(** ** The schema store of the specification *)

Module SchemaStore.

(** Modelled from the spec: the class [Database] and the function
    [get_non_matching_fks] ([meadow/database/database.py]) are not among
    the sources.  A base table owns columns and foreign-key edges; a column
    has a canonical name and a display name; a column remap, scoped to one
    base table, sends canonical names to display names and is provisional;
    [applyColumnRemap] "records the remap for later validation" and "fails
    with InvalidRemapError if the table is unknown" (the text of that error
    is not given); [discardPendingRemaps] "reverts all provisional remaps";
    [checkForeignKeyConsistency] returns "every FK edge whose two endpoints
    differ" in display name. *)
Record ForeignKeyEdge : Type := {
  fk_column : string;
  fk_ref_table : string;
  fk_ref_column : string
}.

Record TableDecl : Type := {
  decl_name : string;
  decl_columns : list string;
  decl_fks : list ForeignKeyEdge
}.

Record Store : Type := {
  declared : list TableDecl;
  pending : PyDict.dict ColMap
}.

Record Column : Type := {
  canonical : string;
  display : string
}.

Record TableView : Type := {
  tv_name : string;
  tv_columns : list Column;
  tv_fks : list ForeignKeyEdge
}.

Definition display_name (remaps : PyDict.dict ColMap) (tbl col : string) : string :=
  match PyDict.get remaps tbl with
  | Some col_map =>
      match PyDict.get col_map col with
      | Some d => d
      | None => col
      end
  | None => col
  end.

Definition view_of (remaps : PyDict.dict ColMap) (t : TableDecl) : TableView :=
  {| tv_name := decl_name t;
     tv_columns :=
       map (fun c => {| canonical := c; display := display_name remaps (decl_name t) c |})
         (decl_columns t);
     tv_fks := decl_fks t |}.

Definition store_tables (st : Store) : list TableView :=
  map (view_of (pending st)) (declared st).

(** The display names of the store, table by table. *)
Definition display_names (st : Store) : list (string * list string) :=
  map (fun t => (tv_name t, map display (tv_columns t))) (store_tables st).

Definition is_declared (st : Store) (tbl : string) : bool :=
  existsb (fun t => String.eqb (decl_name t) tbl) (declared st).

Definition merge_col_map (old new : ColMap) : ColMap :=
  fold_left (fun m kv => PyDict.set m (fst kv) (snd kv)) new old.

Definition apply_column_remap (st : Store) (tbl : string) (col_map : ColMap)
  : Exc unit * Store :=
  if is_declared st tbl then
    let old := match PyDict.get (pending st) tbl with Some m => m | None => [] end in
    (Returned tt,
     {| declared := declared st;
        pending := PyDict.set (pending st) tbl (merge_col_map old col_map) |})
  else (Raised (InvalidRemapError ("Table " ++ tbl ++ " is not in the database.")), st).

Definition discard_pending_remaps (st : Store) : Store :=
  {| declared := declared st; pending := [] |}.

(** The names the columns have when no remap is held. *)
Definition canonical_names (st : Store) : list (string * list string) :=
  map (fun t => (decl_name t, decl_columns t)) (declared st).

Definition display_in (t : TableView) (col : string) : string :=
  match find (fun c => String.eqb (canonical c) col) (tv_columns t) with
  | Some c => display c
  | None => col
  end.

Definition Endpoint : Type := (string * string)%type.

Definition non_matching_of (tbls : PyDict.dict TableView) (t : TableView)
  : list (Endpoint * Endpoint) :=
  flat_map
    (fun fk =>
       let d1 := display_in t (fk_column fk) in
       let d2 := match PyDict.get tbls (fk_ref_table fk) with
                 | Some t2 => display_in t2 (fk_ref_column fk)
                 | None => fk_ref_column fk
                 end in
       if String.eqb d1 d2 then []
       else [((tv_name t, d1), (fk_ref_table fk, d2))])
    (tv_fks t).

Definition check_foreign_key_consistency (tbls : PyDict.dict TableView)
  : list (Endpoint * Endpoint) :=
  flat_map (fun kv => non_matching_of tbls (snd kv)) tbls.

Definition repr_endpoint (e : Endpoint) : string :=
  "('" ++ fst e ++ "', '" ++ snd e ++ "')".

Definition repr_pairs (l : list (Endpoint * Endpoint)) : string :=
  "[" ++ String.concat ", "
           (map (fun p => "(" ++ repr_endpoint (fst p) ++ ", " ++ repr_endpoint (snd p) ++ ")") l)
      ++ "]".

#[global] Instance remap_store : RemapStore Store := {|
  BaseTable := TableView;
  FKPair := (Endpoint * Endpoint)%type;
  add_base_table_column_remap := apply_column_remap;
  remove_base_table_remaps := discard_pending_remaps;
  tables := store_tables;
  table_name := tv_name;
  get_non_matching_fks := check_foreign_key_consistency;
  repr_fk_pairs := repr_pairs
|}.

End SchemaStore.

(** ** A store of views kept as a list, to run the SQL generator on examples *)

Module ListViews.

Definition Views : Type := PyDict.dict string.

#[global] Instance view_store : ViewStore Views := {|
  Table := string;
  DataFrame := string;
  get_table := fun db name => PyDict.get db name;
  view_sql := fun t => t;
  normalize_query := fun _ sql => Returned sql;
  add_view := fun db name sql => (Returned tt, PyDict.set db name sql);
  run_sql_to_df := fun _ _ => Raised (LibraryError "no query engine");
  df_head := fun _ df => df;
  df_to_string := fun df => df
|}.

End ListViews.

(** ** Examples *)

Module Examples.

Definition dq : string := String (ascii_of_nat 34) EmptyString.
Definition quoted (s : string) : string := dq ++ s ++ dq.

Definition scenario_c : string :=
  "<sql1>SELECT * FROM orders</sql1> <sql2>SELECT count(*) FROM (<sql1>)</sql2>".

(** [{"orders": {"cust_id": "name", "oid": "name"}}] *)
Definition scenario_b_text : string :=
  "{" ++ quoted "orders" ++ ": {" ++ quoted "cust_id" ++ ": " ++ quoted "name"
  ++ ", " ++ quoted "oid" ++ ": " ++ quoted "name" ++ "}}".
Definition scenario_b_payload : Payload :=
  [("orders", [("cust_id", "name"); ("oid", "name")])].

(** [{"customers": {"id": "cust_id"}}] *)
Definition scenario_a_text : string :=
  "{" ++ quoted "customers" ++ ": {" ++ quoted "id" ++ ": " ++ quoted "cust_id" ++ "}}".
Definition scenario_a_payload : Payload := [("customers", [("id", "cust_id")])].

(** [{"customers": {"name": "customer_name"}}] *)
Definition keep_mismatch_text : string :=
  "{" ++ quoted "customers" ++ ": {" ++ quoted "name" ++ ": " ++ quoted "customer_name" ++ "}}".
Definition keep_mismatch_payload : Payload := [("customers", [("name", "customer_name")])].

(** A decoder for the texts of the examples: what [json.loads] returns on
    them, and the error it raises on a text that is no JSON value. *)
Definition example_json_loads (s : string) : Exc Payload :=
  if String.eqb s scenario_b_text then Returned scenario_b_payload
  else if String.eqb s scenario_a_text then Returned scenario_a_payload
  else if String.eqb s keep_mismatch_text then Returned keep_mismatch_payload
  else Raised (JSONDecodeError "Expecting value: line 1 column 1 (char 0)").

(** [orders(oid, cust_id)], [customers(id, name)], with the foreign key
    [orders.cust_id -> customers.id]. *)
Definition shop : SchemaStore.Store :=
  {| SchemaStore.declared :=
       [ {| SchemaStore.decl_name := "orders";
            SchemaStore.decl_columns := ["oid"; "cust_id"];
            SchemaStore.decl_fks :=
              [ {| SchemaStore.fk_column := "cust_id";
                   SchemaStore.fk_ref_table := "customers";
                   SchemaStore.fk_ref_column := "id" |} ] |};
         {| SchemaStore.decl_name := "customers";
            SchemaStore.decl_columns := ["id"; "name"];
            SchemaStore.decl_fks := [] |} ];
     SchemaStore.pending := [] |}.

End Examples.

Import Examples.

(** ** Predicates on texts *)

(** The character [c] occurs in [s]. *)
Fixpoint has_char (c : ascii) (s : string) : bool :=
  match s with
  | EmptyString => false
  | String a s' => Ascii.eqb a c || has_char c s'
  end.

(** The opening and the closing tag of the fragment numbered by the
    digits [ds], and the subquery over the view [name]. *)
Definition open_tag (ds : string) : string := "<sql" ++ ds ++ ">".
Definition close_tag (ds : string) : string := "</sql" ++ ds ++ ">".
Definition subquery_over (name : string) : string := "(SELECT * FROM " ++ name ++ ")".

(** The two messages [parse_rename_and_update_db] returns: the rejection
    that carries an error and asks for a response, and the confirmation. *)
Definition rejection_message (agent_name error_message : string) : AgentMessage :=
  {| role := "assistant";
     content := error_message ++ " Please regenerate mapping and try again.";
     display_content := None; tool_calls := None; generating_agent := None;
     sending_agent := Some agent_name; receiving_agent := None;
     is_termination_message := false; requires_response := true;
     requires_execution := false |}.

Definition confirmation_message (agent_name : string) : AgentMessage :=
  {| role := "assistant"; content := "The schema has been updated.";
     display_content := None; tool_calls := None; generating_agent := None;
     sending_agent := Some agent_name; receiving_agent := None;
     is_termination_message := false; requires_response := false;
     requires_execution := false |}.

(** The mapping sends every column to its own name. *)
Definition is_identity_map (col_map : ColMap) : bool :=
  forallb (fun kv => String.eqb (fst kv) (snd kv)) col_map.

(** A message made of fragments: each is given by the text before it, the
    digits of its opening tag, its body and the digits of its closing tag;
    [post] is the text after the last one. *)
Definition Fragment : Type := (string * string * string * string)%type.

Definition fragment_text (f : Fragment) : string :=
  let '(_, ds1, body, ds2) := f in open_tag ds1 ++ body ++ close_tag ds2.

Definition fragment_body (f : Fragment) : string :=
  let '(_, _, body, _) := f in body.

Definition fragment_ok (f : Fragment) : bool :=
  let '(pre, ds1, body, ds2) := f in
  negb (has_char "<" pre) && negb (has_char "<" body)
  && all_digits ds1 && negb (String.eqb ds1 EmptyString)
  && all_digits ds2 && negb (String.eqb ds2 EmptyString).

Fixpoint render_fragments (fragments : list Fragment) (post : string) : string :=
  match fragments with
  | [] => post
  | f :: rest =>
      let '(pre, _, _, _) := f in
      pre ++ fragment_text f ++ render_fragments rest post
  end.


(** * Properties *)

(** ** [prettify_sql] *)

(** C10: [prettify_sql] returns a string on every input and never raises;
    when the SQL parser raises on the input, the input is returned
    unchanged, and otherwise the parser's rendering is returned. *)
Theorem prettify_sql_total :
  forall (sqlglot_pretty : string -> Exc string) (sql : string),
    (exists out, prettify_sql sqlglot_pretty sql = Returned out)
    /\ (forall e, sqlglot_pretty sql = Raised e ->
                  prettify_sql sqlglot_pretty sql = Returned sql)
    /\ (forall out, sqlglot_pretty sql = Returned out ->
                    prettify_sql sqlglot_pretty sql = Returned out).
Proof.
  intros pretty sql. unfold prettify_sql, try_except.
  destruct (pretty sql) as [out|e] eqn:E; repeat split.
  - now exists out.
  - intros e' He'. discriminate He'.
  - intros out' Hout. exact Hout.
  - now exists sql.
  - intros out Hout. discriminate Hout.
Qed.

Lemma prettify_sql_total_witness :
  prettify_sql (fun _ => Raised (LibraryError "ParseError")) "SELEC 1"
  = Returned "SELEC 1".
Proof.
  apply (proj1 (proj2 (prettify_sql_total
                         (fun _ => Raised (LibraryError "ParseError")) "SELEC 1"))
           (LibraryError "ParseError")).
  reflexivity.
Defined.

(** ** Reference rewriting *)

(** C1: on the message of scenario C the parser yields the two fragments,
    the reference pattern finds the parenthesized token [(<sql1>)], and
    [replace_tag_with_table] puts [<sql1>], angle brackets included, after
    [FROM]: the body registered for [sql2] is not the one over the view
    [sql1].  A bare reference is rewritten into the subquery over the view. *)
Theorem scenario_c_parenthesized_reference :
  parse_sqls scenario_c
  = Returned [("sql1", "SELECT * FROM orders");
              ("sql2", "SELECT count(*) FROM (<sql1>)")]
  /\ largest_key ["sql1"; "sql2"] = Returned "sql2"
  /\ findall_references "SELECT count(*) FROM (<sql1>)" = ["(<sql1>)"]
  /\ replace_tag_with_table "SELECT count(*) FROM (<sql1>)"
     = "SELECT count(*) FROM (SELECT * FROM <sql1>)"
  /\ replace_tag_with_table "SELECT count(*) FROM (<sql1>)"
     <> "SELECT count(*) FROM (SELECT * FROM sql1)"
  /\ replace_tag_with_table "SELECT count(*) FROM <sql1>"
     = "SELECT count(*) FROM (SELECT * FROM sql1)".
Proof.
  repeat split; try reflexivity.
  intro Heq. vm_compute in Heq. discriminate Heq.
Qed.

(** ** Termination and missing SQL *)



(** ** Tags that are already registered *)

Section RegisteredTags.

Context {D : Type} `{ViewStore D}.
Variable sqlglot_pretty : string -> Exc string.
Variable generate_llm_reply : D -> list AgentMessage -> string.

Lemma register_fragments_registered :
  forall (db : D) (items : list (string * string)),
    (forall k v, In (k, v) items -> get_table db k <> None) ->
    register_fragments db items = (Returned tt, db).
Proof.
  intros db items. induction items as [|[k v] rest IH]; intros Hreg.
  - reflexivity.
  - simpl. destruct (get_table db k) as [t|] eqn:Hk.
    + apply IH. intros k' v' Hin. apply (Hreg k' v'). now right.
    + exfalso. apply (Hreg k v); [now left | exact Hk].
Qed.

Lemma in_dict_keys :
  forall (d : PyDict.dict string) (k v : string),
    In (k, v) d -> In k (PyDict.keys d).
Proof.
  intros d k v Hin. unfold PyDict.keys.
  change k with (fst (k, v)). now apply in_map.
Qed.

End RegisteredTags.

(** C6: a fragment whose tag is already registered is skipped, whatever its
    text, and the database is left exactly as it was; a message all of whose
    tags are registered leaves the database of [generate_reply] unchanged. *)
Theorem registered_tag_is_skipped :
  forall (D : Type) (VS : ViewStore D) (sqlglot_pretty : string -> Exc string)
         (generate_llm_reply : D -> list AgentMessage -> string)
         (self : SQLGeneratorAgent) (db : D) (k v : string) (view_table : Table),
    get_table db k = Some view_table ->
    register_fragment db (k, v) = (Returned tt, db)
    /\ (forall messages sql_dict,
           parse_sqls (generate_llm_reply db messages) = Returned sql_dict ->
           (forall k', In k' (PyDict.keys sql_dict) -> get_table db k' <> None) ->
           snd (sql_generate_reply sqlglot_pretty generate_llm_reply self db messages)
           = db).
Proof.
  intros D VS pretty llm self db k v view_table Hk. split.
  - unfold register_fragment. rewrite Hk. reflexivity.
  - intros messages sql_dict Hparse Hreg. unfold sql_generate_reply.
    destruct (has_termination_condition _ _); [reflexivity|].
    rewrite Hparse.
    destruct (largest_key (PyDict.keys sql_dict)) as [largest_k|e]; [|reflexivity].
    rewrite register_fragments_registered.
    + destruct (get_table db largest_k); reflexivity.
    + intros k' v' Hin. apply Hreg. now apply in_dict_keys with (v := v').
Qed.

Lemma registered_tag_is_skipped_witness :
  register_fragment ([("sql1", "SELECT * FROM orders")] : ListViews.Views)
    ("sql1", "SELECT * FROM orders")
  = (Returned tt, [("sql1", "SELECT * FROM orders")])
  /\ snd (sql_generate_reply (fun s => Returned s)
            (fun _ _ => "<sql1>SELECT * FROM orders;</sql1>")
            {| sql_termination_message := "<exit>"; sql_silent := true |}
            ([("sql1", "SELECT * FROM orders")] : ListViews.Views) [])
     = [("sql1", "SELECT * FROM orders")].
Proof.
  pose proof (registered_tag_is_skipped ListViews.Views _ (fun s => Returned s)
                (fun _ _ => "<sql1>SELECT * FROM orders;</sql1>")
                {| sql_termination_message := "<exit>"; sql_silent := true |}
                [("sql1", "SELECT * FROM orders")] "sql1" "SELECT * FROM orders"
                "SELECT * FROM orders" eq_refl) as [Hfragment Hreply].
  split.
  - exact Hfragment.
  - apply (Hreply [] [("sql1", "SELECT * FROM orders")]).
    + reflexivity.
    + intros k' [Hk'|[]]. subst k'. discriminate.
Defined.

(** The same message handed to the agent twice: the second time nothing is
    registered and the views are those left by the first. *)
Example same_message_twice :
  let run := sql_generate_reply (fun s => Returned s)
               (fun _ _ => "<sql1>SELECT * FROM orders;</sql1>")
               {| sql_termination_message := "<exit>"; sql_silent := true |} in
  snd (run ([] : ListViews.Views) []) = [("sql1", "SELECT * FROM orders")]
  /\ snd (run (snd (run ([] : ListViews.Views) [])) []) = snd (run ([] : ListViews.Views) []).
Proof. split; reflexivity. Qed.

(** ** The rename commit *)

Section RenameCommit.

Context {D : Type} `{RemapStore D}.
Variable json_loads : string -> Exc Payload.

Lemma decode_content_decoded :
  forall (text json_text : string) (payload : Payload),
    json_content_of text = Returned json_text ->
    json_loads json_text = Returned payload ->
    decode_content json_loads text = Returned (ContentDict payload, None).
Proof.
  intros text json_text payload Htext Hloads. unfold decode_content.
  rewrite Htext. simpl. rewrite Hloads. reflexivity.
Qed.

Lemma decode_content_malformed :
  forall (text json_text e : string),
    json_content_of text = Returned json_text ->
    json_loads json_text = Raised (JSONDecodeError e) ->
    decode_content json_loads text
    = Returned (ContentStr text,
                Some ("The content is not a valid JSON object." ++ nl ++ e)).
Proof.
  intros text json_text e Htext Hloads. unfold decode_content.
  rewrite Htext. simpl. rewrite Hloads. reflexivity.
Qed.

(** A call that returns a rejection leaves a store on which
    [remove_base_table_remaps] was the last operation; a call that returns
    the confirmation leaves a store whose foreign keys all match. *)
Lemma commit_outcomes :
  forall (messages : list AgentMessage) (agent_name : string) (db db' : D)
         (can_reask_again : bool) (reply : AgentMessage),
    parse_rename_and_update_db json_loads messages agent_name db can_reask_again
    = (Returned reply, db') ->
    (requires_response reply = true
     /\ exists db0, db' = remove_base_table_remaps db0)
    \/ (requires_response reply = false
        /\ content reply = "The schema has been updated."
        /\ get_non_matching_fks (table_as_dict db') = []).
Proof.
  intros messages agent_name db db' can reply. unfold parse_rename_and_update_db.
  destruct (last_item messages) as [last_message|]; [|discriminate].
  destruct (decode_content json_loads (content last_message)) as [[c err]|e];
    [|discriminate].
  destruct (content_items c) as [items|e]; [|discriminate].
  destruct (fold_left check_duplicates items err) as [msg|].
  - intros Heq. injection Heq as Hreply Hdb. subst reply. left. split.
    + reflexivity.
    + now exists db.
  - destruct (apply_remaps db items) as [[msg|] db1].
    + intros Heq. injection Heq as Hreply Hdb. subst reply. left. split.
      * reflexivity.
      * now exists db1.
    + unfold check_fks.
      destruct (get_non_matching_fks (table_as_dict db1)) as [|p ps] eqn:Hfks.
      * intros Heq. injection Heq as Hreply Hdb. subst reply db'. right.
        repeat split. exact Hfks.
      * intros Heq. injection Heq as Hreply Hdb. subst reply. left. split.
        -- reflexivity.
        -- now exists db1.
Qed.

(** The call reads the content of the last message and nothing else of
    [messages], and it does not read [can_reask_again]. *)
Lemma commit_reads_last_content_only :
  forall (messages messages' : list AgentMessage) (m m' : AgentMessage)
         (agent_name : string) (db : D) (can_reask_again can_reask_again' : bool),
    last_item messages = Some m ->
    last_item messages' = Some m' ->
    content m = content m' ->
    parse_rename_and_update_db json_loads messages agent_name db can_reask_again
    = parse_rename_and_update_db json_loads messages' agent_name db can_reask_again'.
Proof.
  intros messages messages' m m' agent_name db can can' Hm Hm' Hcontent.
  unfold parse_rename_and_update_db. rewrite Hm, Hm', Hcontent. reflexivity.
Qed.

End RenameCommit.

(** C3: when the text handed to [json.loads] does not decode, be it the
    whole content or the body of the last fenced block, the call does not
    return a correction message: [content] is still the text, the loop over
    [content.items()] raises [AttributeError], and the store is as it was. *)
Theorem malformed_payload_raises :
  forall (D : Type) (RS : RemapStore D) (json_loads : string -> Exc Payload)
         (messages : list AgentMessage) (last_message : AgentMessage)
         (agent_name : string) (db : D) (can_reask_again : bool)
         (json_text e : string),
    last_item messages = Some last_message ->
    json_content_of (content last_message) = Returned json_text ->
    json_loads json_text = Raised (JSONDecodeError e) ->
    parse_rename_and_update_db json_loads messages agent_name db can_reask_again
    = (Raised (AttributeError "'str' object has no attribute 'items'"), db).
Proof.
  intros D RS json_loads messages last_message agent_name db can json_text e
    Hlast Htext Hloads.
  unfold parse_rename_and_update_db. rewrite Hlast.
  rewrite (decode_content_malformed json_loads _ _ _ Htext Hloads).
  reflexivity.
Qed.

Lemma malformed_payload_raises_witness :
  parse_rename_and_update_db example_json_loads
    [new_message "user" "Sure, here is the mapping: customers.id -> cust_id"]
    "SchemaRenamer" shop true
  = (Raised (AttributeError "'str' object has no attribute 'items'"), shop)
  /\ parse_rename_and_update_db example_json_loads
       [new_message "user" ("```json" ++ nl ++ "{customers: }" ++ nl ++ "```")]
       "SchemaRenamer" shop true
     = (Raised (AttributeError "'str' object has no attribute 'items'"), shop).
Proof.
  split.
  - apply (malformed_payload_raises SchemaStore.Store _ example_json_loads
             [new_message "user" "Sure, here is the mapping: customers.id -> cust_id"]
             (new_message "user" "Sure, here is the mapping: customers.id -> cust_id")
             "SchemaRenamer" shop true
             "Sure, here is the mapping: customers.id -> cust_id"
             "Expecting value: line 1 column 1 (char 0)");
      reflexivity.
  - apply (malformed_payload_raises SchemaStore.Store _ example_json_loads
             [new_message "user" ("```json" ++ nl ++ "{customers: }" ++ nl ++ "```")]
             (new_message "user" ("```json" ++ nl ++ "{customers: }" ++ nl ++ "```"))
             "SchemaRenamer" shop true
             "{customers: }"
             "Expecting value: line 1 column 1 (char 0)");
      reflexivity.
Defined.

(** C5: with [orders.cust_id -> customers.id] unmatched, the mapping
    [{"customers": {"name": "customer_name"}}] is rejected with the
    foreign-key message, which asks for the same remapping to be output if
    the mismatch cannot be helped; submitted again unchanged after that
    message, it is rejected again with the same message, whatever
    [can_reask_again] is. *)
Theorem resubmitted_mapping_is_rejected_again :
  let proposal := new_message "user" keep_mismatch_text in
  exists rejection : AgentMessage,
    parse_rename_and_update_db example_json_loads [proposal] "SchemaRenamer" shop true
    = (Returned rejection, shop)
    /\ requires_response rejection = true
    /\ contains "output the same remapping" (content rejection) = true
    /\ forall can_reask_again : bool,
         parse_rename_and_update_db example_json_loads
           [proposal; rejection; proposal] "SchemaRenamer" shop can_reask_again
         = (Returned rejection, shop).
Proof.
  intros proposal. eexists. split; [reflexivity|]. split; [reflexivity|].
  split; [reflexivity|]. intros [|]; reflexivity.
Qed.

(** ** Duplicate target names *)

Lemma nodup_length_le :
  forall l : list string, List.length (nodup string_dec l) <= List.length l.
Proof.
  induction l as [|a l IH]; simpl; [lia|].
  destruct (in_dec string_dec a l); simpl; lia.
Qed.

Lemma set_size_full_NoDup :
  forall l : list string, set_size l = List.length l -> NoDup l.
Proof.
  unfold set_size. induction l as [|a l IH]; simpl; intros Hlen.
  - constructor.
  - destruct (in_dec string_dec a l) as [Hin|Hnin].
    + pose proof (nodup_length_le l). lia.
    + constructor; [exact Hnin|]. apply IH. simpl in Hlen. lia.
Qed.

Lemma first_repeated_none_fresh :
  forall vals seen : list string,
    first_repeated vals seen = None ->
    NoDup vals /\ forall x, In x vals -> ~ In x seen.
Proof.
  induction vals as [|v rest IH]; cbn [first_repeated]; intros seen Hnone.
  - split; [constructor | intros x []].
  - destruct (in_dec string_dec v seen) as [Hin|Hnin]; [discriminate|].
    destruct (IH (v :: seen) Hnone) as [Hnodup Hfresh]. split.
    + constructor; [|exact Hnodup].
      intros Hrest. apply (Hfresh v Hrest). now left.
    + intros x [Hx|Hx] Hseen.
      * subst x. contradiction.
      * apply (Hfresh x Hx). now right.
Qed.

Lemma first_repeated_none :
  forall vals : list string, first_repeated vals [] = None -> NoDup vals.
Proof.
  intros vals Hnone. exact (proj1 (first_repeated_none_fresh vals [] Hnone)).
Qed.

Lemma first_repeated_some :
  forall (vals seen : list string) (v : string),
    first_repeated vals seen = Some v ->
    (In v seen /\ In v vals) \/ 1 < count_occ string_dec vals v.
Proof.
  induction vals as [|w rest IH]; cbn [first_repeated]; intros seen v Hsome;
    [discriminate|].
  destruct (in_dec string_dec w seen) as [Hin|Hnin].
  - injection Hsome as Hv. subst w. left. split; [exact Hin | now left].
  - destruct (IH (w :: seen) v Hsome) as [[Hseen Hrest]|Hcount].
    + destruct Hseen as [Heq|Hseen].
      * subst w. right. rewrite count_occ_cons_eq by reflexivity.
        apply (proj1 (count_occ_In string_dec rest v)) in Hrest. lia.
      * left. split; [exact Hseen | now right].
    + right. cbn [count_occ]. destruct (string_dec w v); lia.
Qed.

Lemma check_duplicates_keeps :
  forall (payload : Payload) (error : option string) (item : string * ColMap),
    In item payload ->
    names_duplicate payload error ->
    names_duplicate payload (check_duplicates error item).
Proof.
  intros payload error [tbl col_map] Hin Herr. unfold check_duplicates.
  destruct (negb _); [|exact Herr].
  destruct (first_repeated (PyDict.values col_map) []) as [value|] eqn:Hrep;
    [|exact Herr].
  exists tbl, col_map, value. split; [exact Hin|]. split; [|reflexivity].
  destruct (first_repeated_some _ _ _ Hrep) as [[[] _]|Hcount]. exact Hcount.
Qed.

Lemma check_duplicates_finds :
  forall (payload : Payload) (error : option string) (tbl : string) (col_map : ColMap),
    In (tbl, col_map) payload ->
    ~ NoDup (PyDict.values col_map) ->
    names_duplicate payload (check_duplicates error (tbl, col_map)).
Proof.
  intros payload error tbl col_map Hin Hdup. unfold check_duplicates.
  destruct (set_size (PyDict.values col_map) =? List.length (PyDict.values col_map))
    eqn:Hsize.
  - exfalso. apply Hdup. apply set_size_full_NoDup. now apply Nat.eqb_eq.
  - simpl.
    destruct (first_repeated (PyDict.values col_map) []) as [value|] eqn:Hrep.
    + exists tbl, col_map, value. split; [exact Hin|]. split; [|reflexivity].
      destruct (first_repeated_some _ _ _ Hrep) as [[[] _]|Hcount]. exact Hcount.
    + exfalso. apply Hdup. now apply first_repeated_none.
Qed.

Lemma check_duplicates_fold :
  forall (payload : Payload) (items : list (string * ColMap)) (error : option string),
    (forall item, In item items -> In item payload) ->
    names_duplicate payload error
    \/ (exists tbl col_map, In (tbl, col_map) items /\ ~ NoDup (PyDict.values col_map)) ->
    names_duplicate payload (fold_left check_duplicates items error).
Proof.
  intros payload items. induction items as [|item rest IH]; intros error Hsub Hcase.
  - simpl. destruct Hcase as [Herr|(tbl & col_map & [] & _)]. exact Herr.
  - simpl. apply IH.
    + intros it Hit. apply Hsub. now right.
    + destruct Hcase as [Herr|(tbl & col_map & [Heq|Hin] & Hdup)].
      * left. apply check_duplicates_keeps; [apply Hsub; now left | exact Herr].
      * left. subst item. apply check_duplicates_finds; [apply Hsub; now left | exact Hdup].
      * right. now exists tbl, col_map.
Qed.

Lemma apply_remaps_declared :
  forall (items : list (string * ColMap)) (st : SchemaStore.Store),
    SchemaStore.declared (snd (apply_remaps st items)) = SchemaStore.declared st.
Proof.
  induction items as [|[tbl col_map] rest IH]; intros st; [reflexivity|].
  simpl. destruct (existsb _ col_map); [|apply IH].
  unfold SchemaStore.apply_column_remap.
  destruct (SchemaStore.is_declared st tbl); simpl; [|reflexivity].
  rewrite IH. reflexivity.
Qed.

Lemma discard_without_pending :
  forall st : SchemaStore.Store,
    SchemaStore.pending st = [] -> SchemaStore.discard_pending_remaps st = st.
Proof.
  intros [decls remaps] Hnone. simpl in Hnone. subst remaps. reflexivity.
Qed.

Lemma display_names_without_pending :
  forall st st' : SchemaStore.Store,
    SchemaStore.pending st' = [] ->
    SchemaStore.declared st' = SchemaStore.declared st ->
    SchemaStore.display_names st' = SchemaStore.canonical_names st.
Proof.
  intros st [decls remaps] Hnone Hdecl. simpl in Hnone, Hdecl. subst remaps decls.
  unfold SchemaStore.display_names, SchemaStore.canonical_names,
    SchemaStore.store_tables. simpl.
  rewrite map_map. apply map_ext. intros t. simpl. f_equal.
  rewrite map_map. simpl.
  induction (SchemaStore.decl_columns t) as [|c cols IH]; [reflexivity|].
  simpl. f_equal. exact IH.
Qed.

(** C2, as the code has it: when a table of the decoded payload gives one
    target name to two columns, the call returns the rejection that names
    such a value and its table, with [requires_response] set; it records no
    remap, and the store it leaves is the one [remove_base_table_remaps]
    makes of the store of before the call: no remap is held in it, so its
    display names are the canonical names of the columns, and it is the
    store of before the call, display names included, when no remap was
    held there.  Every call that returns a rejection leaves a store with no
    remap, the declared tables of before and the canonical names as display
    names. *)
Theorem duplicate_target_is_rejected :
  forall (json_loads : string -> Exc Payload) (messages : list AgentMessage)
         (agent_name : string) (st : SchemaStore.Store) (can_reask_again : bool),
    (forall (last_message : AgentMessage) (json_text : string) (payload : Payload)
            (tbl : string) (col_map : ColMap),
        last_item messages = Some last_message ->
        json_content_of (content last_message) = Returned json_text ->
        json_loads json_text = Returned payload ->
        In (tbl, col_map) payload ->
        ~ NoDup (PyDict.values col_map) ->
        exists (tbl' : string) (col_map' : ColMap) (value : string),
          In (tbl', col_map') payload
          /\ 1 < count_occ string_dec (PyDict.values col_map') value
          /\ parse_rename_and_update_db json_loads messages agent_name st can_reask_again
             = (Returned {| role := "assistant";
                            content := duplicate_message tbl' value
                                       ++ " Please regenerate mapping and try again.";
                            display_content := None; tool_calls := None;
                            generating_agent := None;
                            sending_agent := Some agent_name;
                            receiving_agent := None;
                            is_termination_message := false;
                            requires_response := true;
                            requires_execution := false |},
                remove_base_table_remaps st)
          /\ SchemaStore.pending (remove_base_table_remaps st) = []
          /\ SchemaStore.display_names (remove_base_table_remaps st)
             = SchemaStore.canonical_names st
          /\ (SchemaStore.pending st = [] ->
              remove_base_table_remaps st = st
              /\ SchemaStore.display_names (remove_base_table_remaps st)
                 = SchemaStore.display_names st))
    /\ (forall (reply : AgentMessage) (st' : SchemaStore.Store),
           parse_rename_and_update_db json_loads messages agent_name st can_reask_again
           = (Returned reply, st') ->
           requires_response reply = true ->
           SchemaStore.pending st' = []
           /\ SchemaStore.declared st' = SchemaStore.declared st
           /\ SchemaStore.display_names st' = SchemaStore.canonical_names st).
Proof.
  intros json_loads messages agent_name st can. split.
  - intros last_message json_text payload tbl col_map Hlast Htext Hloads Hin Hdup.
    assert (Hfold : names_duplicate payload (fold_left check_duplicates payload None)).
    { apply check_duplicates_fold; [auto|]. right. now exists tbl, col_map. }
    destruct Hfold as (tbl' & col_map' & value & Hin' & Hcount & Herr).
    exists tbl', col_map', value. split; [exact Hin'|]. split; [exact Hcount|].
    split; [|split; [|split]].
    + unfold parse_rename_and_update_db. rewrite Hlast.
      rewrite (decode_content_decoded json_loads _ _ _ Htext Hloads).
      cbn [content_items]. rewrite Herr. reflexivity.
    + reflexivity.
    + now apply display_names_without_pending.
    + intros Hnone. simpl. rewrite (discard_without_pending st Hnone). now split.
  - intros reply st' Hrun Hresp.
    assert (Hstore : SchemaStore.pending st' = []
                     /\ SchemaStore.declared st' = SchemaStore.declared st).
    { revert Hrun Hresp. unfold parse_rename_and_update_db.
      destruct (last_item messages) as [last_message|]; [|discriminate].
      destruct (decode_content json_loads (content last_message)) as [[c err]|e];
        [|discriminate].
      destruct (content_items c) as [items|e]; [|discriminate].
      destruct (fold_left check_duplicates items err) as [msg|].
      + intros Heq _. injection Heq as _ Hst. subst st'. now split.
      + pose proof (apply_remaps_declared items st) as Hdecl.
        destruct (apply_remaps st items) as [[msg|] st1]; simpl in Hdecl.
        * intros Heq _. injection Heq as _ Hst. subst st'. now split.
        * destruct (check_fks st1) as [msg|].
          -- intros Heq _. injection Heq as _ Hst. subst st'. now split.
          -- intros Heq Hresp. injection Heq as Hreply _. subst reply.
             discriminate Hresp. }
    destruct Hstore as [Hnone Hdecl]. split; [exact Hnone|]. split; [exact Hdecl|].
    now apply display_names_without_pending.
Qed.

Lemma duplicate_target_is_rejected_witness :
  exists (tbl' : string) (col_map' : ColMap) (value : string),
    In (tbl', col_map') scenario_b_payload
    /\ 1 < count_occ string_dec (PyDict.values col_map') value
    /\ parse_rename_and_update_db example_json_loads
         [new_message "user" scenario_b_text] "SchemaRenamer" shop true
       = (Returned {| role := "assistant";
                      content := duplicate_message tbl' value
                                 ++ " Please regenerate mapping and try again.";
                      display_content := None; tool_calls := None;
                      generating_agent := None;
                      sending_agent := Some "SchemaRenamer";
                      receiving_agent := None;
                      is_termination_message := false;
                      requires_response := true;
                      requires_execution := false |},
          remove_base_table_remaps shop)
    /\ SchemaStore.pending (remove_base_table_remaps shop) = []
    /\ SchemaStore.display_names (remove_base_table_remaps shop)
       = SchemaStore.canonical_names shop
    /\ (SchemaStore.pending shop = [] ->
        remove_base_table_remaps shop = shop
        /\ SchemaStore.display_names (remove_base_table_remaps shop)
           = SchemaStore.display_names shop).
Proof.
  apply (proj1 (duplicate_target_is_rejected example_json_loads
                  [new_message "user" scenario_b_text] "SchemaRenamer" shop true)
           (new_message "user" scenario_b_text) scenario_b_text scenario_b_payload
           "orders" [("cust_id", "name"); ("oid", "name")]).
  - reflexivity.
  - reflexivity.
  - reflexivity.
  - left. reflexivity.
  - intros Hnodup. inversion Hnodup as [|x l Hnotin _]. apply Hnotin. now left.
Defined.

(** C2, as the claim has it, fails: on the store the accepted remap of
    scenario A leaves, where [customers.id] is shown as [cust_id], the
    rejection of scenario B removes that remap too, and the display names
    of [customers] are no longer what they were before the call. *)
Lemma rejection_removes_accepted_remaps :
  let accepted := parse_rename_and_update_db example_json_loads
                    [new_message "user" scenario_a_text] "SchemaRenamer" shop true in
  let rejected := parse_rename_and_update_db example_json_loads
                    [new_message "user" scenario_b_text] "SchemaRenamer"
                    (snd accepted) true in
  fst accepted = Returned (confirmation_message "SchemaRenamer")
  /\ SchemaStore.display_names (snd accepted)
     = [("orders", ["oid"; "cust_id"]); ("customers", ["cust_id"; "name"])]
  /\ fst rejected
     = Returned (rejection_message "SchemaRenamer" (duplicate_message "orders" "name"))
  /\ SchemaStore.display_names (snd rejected)
     = [("orders", ["oid"; "cust_id"]); ("customers", ["id"; "name"])]
  /\ SchemaStore.display_names (snd rejected)
     <> SchemaStore.display_names (snd accepted).
Proof.
  intros accepted rejected. subst accepted rejected.
  do 4 (split; [reflexivity|]).
  intros Heq. vm_compute in Heq. discriminate Heq.
Qed.

(** Scenario B as it runs: the duplicate is reported for ['name'] in
    ['orders'] and the display names are those of before the call. *)
Example scenario_b_runs :
  parse_rename_and_update_db example_json_loads
    [new_message "user" scenario_b_text] "SchemaRenamer" shop true
  = (Returned {| role := "assistant";
                 content := "Duplicate column name 'name' found in table 'orders'. Please regenerate mapping and try again.";
                 display_content := None; tool_calls := None;
                 generating_agent := None;
                 sending_agent := Some "SchemaRenamer";
                 receiving_agent := None;
                 is_termination_message := false;
                 requires_response := true;
                 requires_execution := false |}, shop)
  /\ SchemaStore.display_names shop
     = [("orders", ["oid"; "cust_id"]); ("customers", ["id"; "name"])].
Proof. split; reflexivity. Qed.

(** ** Strings *)

Lemma prefix_split :
  forall a s : string, prefix a s = true -> s = a ++ drop (String.length a) s.
Proof.
  induction a as [|c a IH]; intros s Hpre.
  - reflexivity.
  - destruct s as [|d s]; simpl in Hpre; [discriminate|].
    destruct (ascii_dec c d) as [Heq|]; [|discriminate].
    subst d. simpl. f_equal. now apply IH.
Qed.

Lemma prefix_app :
  forall a x : string, prefix a (a ++ x) = true.
Proof.
  induction a as [|c a IH]; intros x; simpl.
  - now destruct x.
  - destruct (ascii_dec c c) as [_|Hne]; [apply IH | contradiction].
Qed.

Lemma drop_app :
  forall a x : string, drop (String.length a) (a ++ x) = x.
Proof.
  induction a as [|c a IH]; intros x; simpl; [now destruct x | apply IH].
Qed.

Lemma take_app :
  forall (a x : string) (k : nat),
    take (String.length a + k) (a ++ x) = a ++ take k x.
Proof.
  induction a as [|c a IH]; intros x k; simpl; [reflexivity|].
  f_equal. apply IH.
Qed.

Lemma take_drop :
  forall (n : nat) (s : string), take n s ++ drop n s = s.
Proof.
  induction n as [|n IH]; intros s; simpl.
  - now destruct s.
  - destruct s as [|c s]; simpl; [reflexivity|]. f_equal. apply IH.
Qed.

Lemma append_assoc :
  forall a b c : string, (a ++ b) ++ c = a ++ (b ++ c).
Proof.
  induction a as [|x a IH]; intros b c; simpl; [reflexivity|].
  f_equal. apply IH.
Qed.

Lemma length_append :
  forall a b : string, String.length (a ++ b) = String.length a + String.length b.
Proof.
  induction a as [|x a IH]; intros b; simpl; [reflexivity|]. f_equal. apply IH.
Qed.

Lemma count_digits_take :
  forall r : string,
    all_digits (take (count_digits r) r) = true
    /\ String.length (take (count_digits r) r) = count_digits r.
Proof.
  induction r as [|c r [IHd IHl]]; simpl; [now split|].
  destruct (is_digit c) eqn:Hc; simpl; [|now split].
  rewrite Hc, IHd, IHl. now split.
Qed.

Lemma count_digits_app :
  forall ds x : string,
    all_digits ds = true -> count_digits x = 0 ->
    count_digits (ds ++ x) = String.length ds.
Proof.
  induction ds as [|c ds IH]; intros x Hds Hx; simpl in *; [exact Hx|].
  apply andb_prop in Hds. destruct Hds as [Hc Hds]. rewrite Hc.
  f_equal. now apply IH.
Qed.

(** ** Tags *)

(** What a match of [lit \d+ >] says of the text, and conversely. *)
Lemma match_tag_inv :
  forall (lit s : string) (n : nat),
    match_tag lit s = Some n ->
    exists ds rest : string,
      s = lit ++ ds ++ ">" ++ rest
      /\ all_digits ds = true /\ ds <> EmptyString
      /\ n = String.length lit + String.length ds + 1.
Proof.
  intros lit s n. unfold match_tag.
  destruct (prefix lit s) eqn:Hlit; [|discriminate].
  set (r := drop (String.length lit) s).
  destruct (0 <? count_digits r) eqn:Hpos; simpl; [|discriminate].
  destruct (prefix ">" (drop (count_digits r) r)) eqn:Hgt; [|discriminate].
  intros Hn. injection Hn as Hn.
  destruct (count_digits_take r) as [Hdigits Hlen].
  exists (take (count_digits r) r), (drop 1 (drop (count_digits r) r)).
  split; [|split; [exact Hdigits|split]].
  - transitivity (lit ++ r); [now apply prefix_split|]. f_equal.
    transitivity (take (count_digits r) r ++ drop (count_digits r) r);
      [symmetry; apply take_drop|]. f_equal.
    exact (prefix_split ">" _ Hgt).
  - intros Hempty. rewrite Hempty in Hlen. simpl in Hlen.
    apply Nat.ltb_lt in Hpos. lia.
  - rewrite Hlen. now symmetry.
Qed.

Lemma match_tag_intro :
  forall lit ds rest : string,
    all_digits ds = true -> ds <> EmptyString ->
    match_tag lit (lit ++ ds ++ ">" ++ rest)
    = Some (String.length lit + String.length ds + 1).
Proof.
  intros lit ds rest Hds Hne. unfold match_tag.
  rewrite prefix_app, drop_app.
  rewrite (count_digits_app ds (">" ++ rest) Hds eq_refl).
  rewrite drop_app.
  assert (Hpos : (0 <? String.length ds) = true).
  { apply Nat.ltb_lt. destruct ds; [contradiction | simpl; lia]. }
  rewrite Hpos. simpl. now destruct rest.
Qed.

Lemma append_empty :
  forall a : string, a ++ EmptyString = a.
Proof.
  induction a as [|c a IH]; simpl; [reflexivity | now rewrite IH].
Qed.

Lemma take_length_app :
  forall a x : string, take (String.length a) (a ++ x) = a.
Proof.
  intros a x. rewrite <- (Nat.add_0_r (String.length a)), take_app.
  destruct x; simpl; apply append_empty.
Qed.

Lemma match_component_whole :
  forall s whole body : string,
    match_component s = Some (whole, body) ->
    exists ds tail : string,
      whole = "<sql" ++ ds ++ ">" ++ tail
      /\ all_digits ds = true /\ ds <> EmptyString.
Proof.
  intros s whole body. unfold match_component, match_open_tag.
  destruct (match_tag "<sql" s) as [n|] eqn:Hopen; [|discriminate].
  destruct (lazy_body (drop n s)) as [[j m]|]; [|discriminate].
  intros Heq. injection Heq as Hwhole _.
  destruct (match_tag_inv _ _ _ Hopen) as (ds & rest & Hs & Hds & Hne & Hn).
  exists ds, (take (j + m) rest). split; [|now split].
  subst whole. rewrite Hs at 1.
  replace ("<sql" ++ ds ++ ">" ++ rest) with (("<sql" ++ ds ++ ">") ++ rest)
    by (rewrite !append_assoc; reflexivity).
  replace (n + j + m) with (String.length ("<sql" ++ ds ++ ">") + (j + m))
    by (rewrite !length_append; simpl; simpl in Hn; lia).
  rewrite take_app, !append_assoc. reflexivity.
Qed.

Lemma search_tag_name_of_tag :
  forall ds tail : string,
    all_digits ds = true -> ds <> EmptyString ->
    search_tag_name ("<sql" ++ ds ++ ">" ++ tail) = Some ("sql" ++ ds).
Proof.
  intros ds tail Hds Hne.
  assert (Hopen : match_open_tag ("<sql" ++ ds ++ ">" ++ tail)
                  = Some (4 + String.length ds + 1))
    by (apply (match_tag_intro "<sql"); assumption).
  change (search_tag_name ("<sql" ++ ds ++ ">" ++ tail))
    with (match match_open_tag ("<sql" ++ ds ++ ">" ++ tail) with
          | Some n => Some (take (n - 2) (drop 1 ("<sql" ++ ds ++ ">" ++ tail)))
          | None => search_tag_name ("sql" ++ ds ++ ">" ++ tail)
          end).
  rewrite Hopen. f_equal.
  replace (4 + String.length ds + 1 - 2) with (String.length ("sql" ++ ds))
    by (rewrite length_append; simpl; lia).
  change (drop 1 ("<sql" ++ ds ++ ">" ++ tail)) with ("sql" ++ ds ++ ">" ++ tail).
  rewrite <- append_assoc. apply take_length_app.
Qed.

Lemma findall_components_matched :
  forall (s : string) (skip : nat) (whole body : string),
    In (whole, body) (findall_components_from s skip) ->
    exists s' : string, match_component s' = Some (whole, body).
Proof.
  induction s as [|c s IH]; intros skip whole body Hin; [destruct Hin|].
  cbn [findall_components_from] in Hin. destruct skip as [|k].
  - destruct (match_component (String c s)) as [[w b]|] eqn:Hm.
    + destruct Hin as [Heq|Hin].
      * injection Heq as Hw Hb. subst w b. now exists (String c s).
      * now apply (IH _ _ _ Hin).
    + now apply (IH _ _ _ Hin).
  - now apply (IH _ _ _ Hin).
Qed.

Lemma component_tag_name :
  forall (message whole body : string),
    In (whole, body) (findall_components message) ->
    exists k : string, search_tag_name whole = Some k /\ is_tag k.
Proof.
  intros message whole body Hin.
  destruct (findall_components_matched _ _ _ _ Hin) as [s' Hm].
  destruct (match_component_whole _ _ _ Hm) as (ds & tail & Hwhole & Hds & Hne).
  exists ("sql" ++ ds). subst whole. split.
  - now apply search_tag_name_of_tag.
  - now exists ds.
Qed.




(** ** Dictionaries *)

Lemma dict_get_set :
  forall (V : Type) (d : PyDict.dict V) (k k' : string) (v : V),
    PyDict.get (PyDict.set d k v) k'
    = if String.eqb k k' then Some v else PyDict.get d k'.
Proof.
  intros V d k k' v. induction d as [|[k0 v0] d IH]; simpl.
  - reflexivity.
  - destruct (String.eqb k0 k) eqn:H0.
    + apply String.eqb_eq in H0. subst k0. simpl.
      destruct (String.eqb k k'); reflexivity.
    + simpl. destruct (String.eqb k0 k') eqn:H1.
      * apply String.eqb_eq in H1. subst k0.
        rewrite String.eqb_sym, H0. reflexivity.
      * exact IH.
Qed.

Lemma dict_keys_set :
  forall (V : Type) (d : PyDict.dict V) (k k' : string) (v : V),
    In k' (PyDict.keys (PyDict.set d k v)) <-> k' = k \/ In k' (PyDict.keys d).
Proof.
  intros V d k k' v. induction d as [|[k0 v0] d IH]; simpl.
  - split; [intros [Hk|[]]; now left | intros [Hk|[]]; now left].
  - destruct (String.eqb k0 k) eqn:H0; simpl.
    + apply String.eqb_eq in H0. subst k0. split; [tauto|].
      intros [Hk|[Hk|Hk]]; [left; now symmetry | now left | now right].
    + rewrite IH. tauto.
Qed.

Lemma dict_set_nonempty :
  forall (V : Type) (d : PyDict.dict V) (k : string) (v : V),
    PyDict.set d k v <> [].
Proof.
  intros V [|[k0 v0] d] k v; simpl; [discriminate|].
  destruct (String.eqb k0 k); discriminate.
Qed.


(** ** What [parse_sqls] stores *)

Lemma replace_semicolon :
  forall s : string, replace ";" "" s = remove_char ";" s.
Proof.
  unfold replace. induction s as [|c s IH]; [reflexivity|].
  cbn [replace_from remove_char]. cbn [prefix].
  destruct (ascii_dec ";" c) as [Heq|Hne].
  - subst c. rewrite Ascii.eqb_refl.
    replace (prefix "" s) with true by (now destruct s).
    simpl. exact IH.
  - destruct (Ascii.eqb c ";") eqn:Hc.
    + apply Ascii.eqb_eq in Hc. now subst c.
    + f_equal. exact IH.
Qed.

Lemma remove_char_absent :
  forall (c : ascii) (s : string),
    ~ In c (list_ascii_of_string (remove_char c s)).
Proof.
  intros c. induction s as [|a s IH]; simpl; [tauto|].
  destruct (Ascii.eqb a c) eqn:Ha; [exact IH|].
  simpl. intros [Heq|Hin]; [|contradiction].
  subst a. rewrite Ascii.eqb_refl in Ha. discriminate.
Qed.

Lemma lstrip_chars :
  forall (s : string) (a : ascii),
    In a (list_ascii_of_string (lstrip s)) -> In a (list_ascii_of_string s).
Proof.
  induction s as [|c s IH]; simpl; intros a Hin; [exact Hin|].
  destruct (is_space c); [right; now apply IH | exact Hin].
Qed.

Lemma rstrip_chars :
  forall (s : string) (a : ascii),
    In a (list_ascii_of_string (rstrip s)) -> In a (list_ascii_of_string s).
Proof.
  induction s as [|c s IH]; cbn [rstrip]; intros a Hin; [exact Hin|].
  destruct (rstrip s) as [|d r] eqn:Hr.
  - destruct (is_space c); simpl in Hin; [contradiction|].
    destruct Hin as [Heq|[]]. now left.
  - destruct Hin as [Heq|Hin]; [now left|]. right. now apply IH.
Qed.

Lemma strip_chars :
  forall (s : string) (a : ascii),
    In a (list_ascii_of_string (strip s)) -> In a (list_ascii_of_string s).
Proof.
  intros s a Hin. unfold strip in Hin. now apply lstrip_chars, rstrip_chars.
Qed.

Lemma rstrip_idempotent :
  forall s : string, rstrip (rstrip s) = rstrip s.
Proof.
  induction s as [|c s IH]; cbn [rstrip]; [reflexivity|].
  destruct (rstrip s) as [|d r] eqn:Hr.
  - destruct (is_space c) eqn:Hc; cbn [rstrip]; [reflexivity|].
    now rewrite Hc.
  - change (rstrip (String c (String d r)))
      with (match rstrip (String d r) with
            | EmptyString => if is_space c then EmptyString else String c EmptyString
            | r' => String c r'
            end).
    now rewrite IH.
Qed.

Lemma lstrip_head :
  forall s : string,
    match lstrip s with
    | EmptyString => True
    | String c _ => is_space c = false
    end.
Proof.
  induction s as [|c s IH]; simpl; [exact I|].
  destruct (is_space c) eqn:Hc; [exact IH | exact Hc].
Qed.

Lemma rstrip_keeps_head :
  forall (c : ascii) (s : string),
    is_space c = false -> exists r, rstrip (String c s) = String c r.
Proof.
  intros c s Hc. cbn [rstrip]. destruct (rstrip s) as [|d r].
  - rewrite Hc. now exists EmptyString.
  - now exists (String d r).
Qed.

(** A stripped string has no white space at either end. *)
Lemma strip_stripped :
  forall s : string, lstrip (strip s) = strip s /\ rstrip (strip s) = strip s.
Proof.
  intros s. unfold strip. split; [|apply rstrip_idempotent].
  pose proof (lstrip_head s) as Hhead.
  destruct (lstrip s) as [|c t]; [reflexivity|].
  destruct (rstrip_keeps_head c t Hhead) as [r Hr]. rewrite Hr.
  simpl. now rewrite Hhead.
Qed.

Lemma parse_sqls_step_from_components :
  forall (comps items : list (string * string)) (d : PyDict.dict string),
    (forall it, In it items -> In it comps) ->
    from_components comps d ->
    from_components comps (fold_left parse_sqls_step items d).
Proof.
  intros comps items. induction items as [|[whole body] rest IH]; intros d Hsub Hd.
  - exact Hd.
  - simpl. apply IH; [intros it Hit; apply Hsub; now right|].
    destruct (search_tag_name whole) as [name|] eqn:Hname; [|exact Hd].
    intros k v. rewrite dict_get_set.
    destruct (String.eqb name k) eqn:Hk.
    + apply String.eqb_eq in Hk. subst k. intros Hv. injection Hv as Hv.
      exists whole, body. split; [apply Hsub; now left|]. split; [exact Hname|].
      rewrite <- replace_semicolon. now symmetry.
    + apply Hd.
Qed.

Lemma parse_sqls_step_nonempty :
  forall (items : list (string * string)) (d : PyDict.dict string),
    d <> [] -> fold_left parse_sqls_step items d <> [].
Proof.
  induction items as [|[whole body] rest IH]; intros d Hd; [exact Hd|].
  simpl. apply IH. destruct (search_tag_name whole); [apply dict_set_nonempty | exact Hd].
Qed.

Lemma parse_sqls_returned :
  forall (message : string) (sql_dict : PyDict.dict string),
    parse_sqls message = Returned sql_dict ->
    from_components (findall_components message) sql_dict /\ sql_dict <> [].
Proof.
  intros message sql_dict. unfold parse_sqls.
  destruct (findall_components message) as [|[whole body] rest] eqn:Hcomps;
    [discriminate|].
  intros Heq.
  assert (Hd : fold_left parse_sqls_step ((whole, body) :: rest) [] = sql_dict)
    by (injection Heq as Hd; exact Hd).
  subst sql_dict. split.
  - apply parse_sqls_step_from_components; [auto|]. intros k v Hget. discriminate Hget.
  - cbn [fold_left]. apply parse_sqls_step_nonempty.
    destruct (component_tag_name message whole body) as (k & Hk & _).
    + rewrite Hcomps. now left.
    + unfold parse_sqls_step. rewrite Hk. apply dict_set_nonempty.
Qed.

(** C4, as the code has it: the body stored for a fragment is the matched
    body with every semicolon taken out, wherever it stands, and then
    stripped of surrounding white space; no semicolon is left in it, and no
    white space at either end. *)
Theorem parse_sqls_removes_every_semicolon :
  forall (message : string) (sql_dict : PyDict.dict string) (k v : string),
    parse_sqls message = Returned sql_dict ->
    PyDict.get sql_dict k = Some v ->
    exists whole body : string,
      In (whole, body) (findall_components message)
      /\ search_tag_name whole = Some k
      /\ v = strip (remove_char ";" body)
      /\ ~ In ";"%char (list_ascii_of_string v)
      /\ lstrip v = v /\ rstrip v = v.
Proof.
  intros message sql_dict k v Hparse Hget.
  destruct (parse_sqls_returned _ _ Hparse) as [Hfrom _].
  destruct (Hfrom k v Hget) as (whole & body & Hin & Hname & Hv).
  exists whole, body. split; [exact Hin|]. split; [exact Hname|].
  split; [exact Hv|]. subst v. split; [|apply strip_stripped].
  intros Hsemi. apply strip_chars in Hsemi.
  exact (remove_char_absent _ _ Hsemi).
Qed.

Lemma parse_sqls_removes_every_semicolon_witness :
  exists whole body : string,
    In (whole, body) (findall_components "<sql1>SELECT 'a;b' FROM t;</sql1>")
    /\ search_tag_name whole = Some "sql1"
    /\ "SELECT 'ab' FROM t" = strip (remove_char ";" body)
    /\ ~ In ";"%char (list_ascii_of_string "SELECT 'ab' FROM t")
    /\ lstrip "SELECT 'ab' FROM t" = "SELECT 'ab' FROM t"
    /\ rstrip "SELECT 'ab' FROM t" = "SELECT 'ab' FROM t".
Proof.
  apply (parse_sqls_removes_every_semicolon "<sql1>SELECT 'a;b' FROM t;</sql1>"
           [("sql1", "SELECT 'ab' FROM t")] "sql1" "SELECT 'ab' FROM t").
  - reflexivity.
  - reflexivity.
Defined.

(** C4, as the claim has it, fails: in the fragment
    [<sql1>SELECT 'a;b' FROM t;</sql1>] the semicolon inside the string
    literal is no trailing terminator and is removed all the same. *)
Lemma semicolon_inside_literal_is_removed :
  findall_components "<sql1>SELECT 'a;b' FROM t;</sql1>"
  = [("<sql1>SELECT 'a;b' FROM t;</sql1>", "SELECT 'a;b' FROM t;")]
  /\ spec_strip_terminator "SELECT 'a;b' FROM t;" = "SELECT 'a;b' FROM t"
  /\ parse_sqls "<sql1>SELECT 'a;b' FROM t;</sql1>"
     = Returned [("sql1", "SELECT 'ab' FROM t")]
  /\ parse_sqls "<sql1>SELECT 'a;b' FROM t;</sql1>"
     <> Returned [("sql1", spec_strip_terminator "SELECT 'a;b' FROM t;")].
Proof.
  repeat split; try reflexivity.
  intros Heq. vm_compute in Heq. discriminate Heq.
Qed.

(** ** The current result *)









(** The tags [sql2], [sql10], [sql1] of one message, run through the
    agent: the reply shows the view [sql10]. *)
Example sql10_is_current :
  sql_generate_reply (fun s => Returned s)
    (fun _ _ => "<sql2>SELECT 2</sql2> <sql10>SELECT 10;</sql10> <sql1>SELECT 1</sql1>")
    {| sql_termination_message := "<exit>"; sql_silent := true |}
    ([] : ListViews.Views) []
  = (Returned {| role := "assistant";
                 content := "<sql2>SELECT 2</sql2> <sql10>SELECT 10;</sql10> <sql1>SELECT 1</sql1>";
                 display_content := Some ("SQL:" ++ nl ++ "SELECT 10");
                 tool_calls := None;
                 generating_agent := Some "SQLGenerator";
                 sending_agent := None; receiving_agent := None;
                 is_termination_message := false;
                 requires_response := false; requires_execution := false |},
     [("sql2", "SELECT 2"); ("sql10", "SELECT 10"); ("sql1", "SELECT 1")]).
Proof. reflexivity. Qed.

(** ** Histories *)

Lemma extends_refl : forall l, extends l l.
Proof. intros l. exists []. now rewrite app_nil_r. Qed.

Lemma extends_trans :
  forall l1 l2 l3, extends l1 l2 -> extends l2 l3 -> extends l1 l3.
Proof.
  intros l1 l2 l3 [a Ha] [b Hb]. exists (a ++ b)%list. subst. now rewrite app_assoc.
Qed.

Lemma extends_app : forall l added, extends l (l ++ added)%list.
Proof. intros l added. now exists added. Qed.

Lemma same_but_content_refl : forall m, same_but_content m m.
Proof. intros []. reflexivity. Qed.

Lemma same_but_content_set :
  forall c m, same_but_content m (set_content c m).
Proof. intros c []. reflexivity. Qed.

Lemma same_but_content_trans :
  forall m1 m2 m3,
    same_but_content m1 m2 -> same_but_content m2 m3 -> same_but_content m1 m3.
Proof.
  unfold same_but_content. intros m1 m2 m3 H12 H23.
  rewrite H23, H12. destruct m1. reflexivity.
Qed.

Lemma extends_but_first_content_refl :
  forall l, extends_but_first_content l l.
Proof.
  intros [|m l]; simpl; [exact I|]. split; [apply same_but_content_refl | apply extends_refl].
Qed.

Lemma extends_but_first_content_trans :
  forall l1 l2 l3,
    extends_but_first_content l1 l2 -> extends_but_first_content l2 l3 ->
    extends_but_first_content l1 l3.
Proof.
  intros [|m1 l1] [|m2 l2] [|m3 l3]; simpl; try tauto.
  intros [H12 E12] [H23 E23]. split.
  - now apply same_but_content_trans with m2.
  - now apply extends_trans with l2.
Qed.

Lemma extends_is_extends_but_first_content :
  forall old new, extends old new -> extends_but_first_content old new.
Proof.
  intros [|m old] new [added Hnew]; simpl; [exact I|].
  subst new. simpl. split; [apply same_but_content_refl | apply extends_app].
Qed.

Lemma get_messages_add_message :
  forall (h : MessageHistory) (agent role partner : string) (message : AgentMessage),
    get_messages (add_message h agent role message) partner
    = if String.eqb agent partner
      then (get_messages h agent ++ [set_role role message])%list
      else get_messages h partner.
Proof.
  intros h agent role partner message. unfold add_message, get_messages at 1.
  rewrite dict_get_set. destruct (String.eqb agent partner); reflexivity.
Qed.

Lemma get_messages_write_back :
  forall (h : MessageHistory) (agent partner : string) (log : list AgentMessage),
    get_messages (write_back h agent log) partner
    = if String.eqb agent partner
      then match PyDict.get h agent with Some _ => log | None => [] end
      else get_messages h partner.
Proof.
  intros h agent partner log. unfold write_back.
  destruct (PyDict.get h agent) as [old|] eqn:Hget.
  - unfold get_messages at 1. rewrite dict_get_set.
    destruct (String.eqb agent partner); reflexivity.
  - destruct (String.eqb agent partner) eqn:Hp; [|reflexivity].
    apply String.eqb_eq in Hp. subst partner. unfold get_messages. now rewrite Hget.
Qed.

Lemma add_message_extends :
  forall (h : MessageHistory) (agent role partner : string) (message : AgentMessage),
    extends (get_messages h partner)
      (get_messages (add_message h agent role message) partner).
Proof.
  intros h agent role partner message. rewrite get_messages_add_message.
  destruct (String.eqb agent partner) eqn:Hp; [|apply extends_refl].
  apply String.eqb_eq in Hp. subst partner. apply extends_app.
Qed.

Section SQLGeneratorHistory.

Context {D : Type} `{ViewStore D}.
Variable sqlglot_pretty : string -> Exc string.
Variable generate_llm_reply : D -> list AgentMessage -> string.
Variable self : SQLGeneratorAgent.

Lemma sql_send_extends :
  forall (st : AgentState D) (message : option AgentMessage) (recipient partner : string),
    extends (get_messages (history st) partner)
      (get_messages (history (snd (sql_send st message recipient))) partner).
Proof.
  intros st [message|] recipient partner; simpl.
  - apply add_message_extends.
  - apply extends_refl.
Qed.

Lemma sql_run_extends :
  forall (st : AgentState D) (op : SQLOperation) (partner : string),
    extends (get_messages (history st) partner)
      (get_messages
         (history (sql_run sqlglot_pretty generate_llm_reply self st op)) partner).
Proof.
  intros st [message recipient|message sender|messages sender] partner; simpl.
  - apply sql_send_extends.
  - unfold sql_receive.
    destruct (sql_generate_reply sqlglot_pretty generate_llm_reply self (database st)
                (get_messages (add_message (history st) sender "user" message) sender))
      as [[reply|e] db]; simpl.
    + eapply extends_trans; [apply add_message_extends|]. apply add_message_extends.
    + apply add_message_extends.
  - apply extends_refl.
Qed.

End SQLGeneratorHistory.

Section SchemaRenamerHistory.

Context {D : Type} `{RemapStore D}.
Variable serialize_as_list : list BaseTable -> string.
Variable generate_llm_reply : list AgentMessage -> string.

Lemma renamer_generate_reply_log :
  forall (db : D) (messages : list AgentMessage),
    extends_but_first_content messages
      (snd (renamer_generate_reply serialize_as_list generate_llm_reply db messages)).
Proof.
  intros db [|m rest]; simpl; [exact I|].
  split; [apply same_but_content_set | apply extends_refl].
Qed.

Lemma renamer_send_extends :
  forall (st : AgentState D) (message : option AgentMessage) (recipient partner : string),
    extends (get_messages (history st) partner)
      (get_messages (history (snd (renamer_send st message recipient))) partner).
Proof.
  intros st [message|] recipient partner; simpl.
  - apply add_message_extends.
  - apply extends_refl.
Qed.

Lemma renamer_write_back_log :
  forall (h : MessageHistory) (db : D) (sender partner : string),
    extends_but_first_content (get_messages h partner)
      (get_messages
         (write_back h sender
            (snd (renamer_generate_reply serialize_as_list generate_llm_reply db
                    (get_messages h sender)))) partner).
Proof.
  intros h db sender partner. rewrite get_messages_write_back.
  destruct (String.eqb sender partner) eqn:Hp;
    [|apply extends_but_first_content_refl].
  apply String.eqb_eq in Hp. subst partner.
  destruct (PyDict.get h sender) as [log|] eqn:Hget.
  - apply renamer_generate_reply_log.
  - unfold get_messages. rewrite Hget. exact I.
Qed.

Lemma renamer_run_log :
  forall (st : AgentState D) (op : RenamerOperation) (partner : string),
    extends_but_first_content (get_messages (history st) partner)
      (get_messages
         (history (renamer_run serialize_as_list generate_llm_reply st op)) partner).
Proof.
  intros st [message recipient|message sender|sender] partner; simpl.
  - apply extends_is_extends_but_first_content, renamer_send_extends.
  - unfold renamer_receive.
    set (h1 := add_message (history st) sender "user" message).
    pose proof (renamer_write_back_log h1 (database st) sender partner) as Hback.
    destruct (renamer_generate_reply serialize_as_list generate_llm_reply
                (database st) (get_messages h1 sender)) as [[reply|e] messages];
      simpl in Hback |- *.
    + eapply extends_but_first_content_trans;
        [apply extends_is_extends_but_first_content, add_message_extends|].
      eapply extends_but_first_content_trans; [exact Hback|].
      apply extends_is_extends_but_first_content, add_message_extends.
    + eapply extends_but_first_content_trans;
        [apply extends_is_extends_but_first_content, add_message_extends|].
      exact Hback.
  - apply renamer_write_back_log.
Qed.

End SchemaRenamerHistory.

(** C7, as the code has it: under any sequence of operations of the SQL
    generator every partner's history only has messages added at its end;
    under any sequence of operations of the schema renamer the same holds
    but for the content of the first message of a history, which
    [generate_reply] overwrites: the other fields of that message and all
    later messages stay, and nothing is removed. *)
Theorem histories_only_grow :
  (forall (D : Type) (VS : ViewStore D) (sqlglot_pretty : string -> Exc string)
          (generate_llm_reply : D -> list AgentMessage -> string)
          (self : SQLGeneratorAgent) (ops : list SQLOperation)
          (st : AgentState D) (partner : string),
      extends (get_messages (history st) partner)
        (get_messages
           (history (fold_left (sql_run sqlglot_pretty generate_llm_reply self) ops st))
           partner))
  /\ (forall (D : Type) (RS : RemapStore D)
             (serialize_as_list : list BaseTable -> string)
             (generate_llm_reply : list AgentMessage -> string)
             (ops : list RenamerOperation) (st : AgentState D) (partner : string),
         extends_but_first_content (get_messages (history st) partner)
           (get_messages
              (history (fold_left (renamer_run serialize_as_list generate_llm_reply) ops st))
              partner)).
Proof.
  split.
  - intros D VS pretty llm self ops. induction ops as [|op ops IH]; intros st partner.
    + apply extends_refl.
    + simpl. eapply extends_trans; [apply sql_run_extends | apply IH].
  - intros D RS ser llm ops. induction ops as [|op ops IH]; intros st partner.
    + apply extends_but_first_content_refl.
    + simpl. eapply extends_but_first_content_trans; [apply renamer_run_log | apply IH].
Qed.

(** C7, as the claim has it, fails: with the message [clean schema] stored
    as the first of the history kept for [User], the schema renamer that
    receives a further message from [User] overwrites the content of the
    stored one with the schema; [generate_reply] alone does the same. *)
Lemma renamer_rewrites_stored_message :
  let serialize := fun tbls : list SchemaStore.TableView =>
                     String.concat ", " (map SchemaStore.tv_name tbls) in
  let llm := fun _ : list AgentMessage => "{}" in
  let st := {| history := [("User", [new_message "user" "clean schema"])];
               database := shop |} in
  let received := renamer_run serialize llm st
                    (RenamerReceive (new_message "user" "please go on") "User") in
  let replied := renamer_run serialize llm st (RenamerGenerateReply "User") in
  map content (get_messages (history received) "User")
  = ["My schema is" ++ nl ++ "orders, customers"; "please go on"; "{}"]
  /\ ~ extends (get_messages (history st) "User")
         (get_messages (history received) "User")
  /\ get_messages (history replied) "User"
     = [new_message "user" ("My schema is" ++ nl ++ "orders, customers")]
  /\ ~ extends (get_messages (history st) "User")
         (get_messages (history replied) "User").
Proof.
  intros serialize llm st received replied.
  split; [reflexivity|]. split; [|split; [reflexivity|]].
  - intros [added Hadded]. vm_compute in Hadded. discriminate Hadded.
  - intros [added Hadded]. vm_compute in Hadded. discriminate Hadded.
Qed.

(** * Further properties *)

(** ** Texts without tags *)

Lemma contains_tail :
  forall (sub : string) (c : ascii) (s : string),
    contains sub (String c s) = false ->
    prefix sub (String c s) = false /\ contains sub s = false.
Proof.
  intros sub c s Hc. cbn [contains] in Hc.
  destruct (prefix sub (String c s)); [discriminate | now split].
Qed.

Lemma contains_prefix :
  forall sub s : string, contains sub s = false -> prefix sub s = false.
Proof.
  intros sub [|c s] Hc.
  - cbn [contains] in Hc. now destruct (prefix sub EmptyString).
  - now apply contains_tail in Hc.
Qed.

Lemma contains_drop :
  forall (sub : string) (n : nat) (s : string),
    contains sub s = false -> contains sub (drop n s) = false.
Proof.
  intros sub n. induction n as [|n IH]; intros s Hc.
  - now destruct s.
  - destruct s as [|c s]; [exact Hc|]. simpl. apply IH.
    now apply contains_tail in Hc.
Qed.

Lemma has_char_contains :
  forall (c : ascii) (x s : string),
    has_char c s = false -> contains (String c x) s = false.
Proof.
  intros c x. induction s as [|a s IH]; intros Hs.
  - reflexivity.
  - simpl in Hs. apply orb_false_elim in Hs. destruct Hs as [Ha Hs].
    cbn [contains prefix]. destruct (ascii_dec c a) as [Heq|Hne].
    + subst a. rewrite Ascii.eqb_refl in Ha. discriminate.
    + now apply IH.
Qed.

Lemma match_tag_needs_prefix :
  forall lit s : string, prefix lit s = false -> match_tag lit s = None.
Proof.
  intros lit s Hp. unfold match_tag. now rewrite Hp.
Qed.

Lemma lazy_body_none :
  forall s : string, contains "</sql" s = false -> lazy_body s = None.
Proof.
  induction s as [|c s IH]; intros Hc.
  - reflexivity.
  - cbn [lazy_body]. unfold match_close_tag.
    rewrite (match_tag_needs_prefix _ _ (contains_prefix _ _ Hc)).
    rewrite IH; [reflexivity|]. now apply contains_tail in Hc.
Qed.

Lemma findall_components_no_close :
  forall (s : string) (skip : nat),
    contains "</sql" s = false -> findall_components_from s skip = [].
Proof.
  induction s as [|c s IH]; intros skip Hc; [reflexivity|].
  cbn [findall_components_from].
  assert (Hs : contains "</sql" s = false) by now apply contains_tail in Hc.
  destruct skip as [|k]; [|now apply IH].
  unfold match_component.
  destruct (match_open_tag (String c s)) as [n|]; [|now apply IH].
  rewrite (lazy_body_none _ (contains_drop _ n _ Hc)). now apply IH.
Qed.

Lemma findall_components_no_open :
  forall (s : string) (skip : nat),
    contains "<sql" s = false -> findall_components_from s skip = [].
Proof.
  induction s as [|c s IH]; intros skip Hc; [reflexivity|].
  cbn [findall_components_from].
  assert (Hs : contains "<sql" s = false) by now apply contains_tail in Hc.
  destruct skip as [|k]; [|now apply IH].
  unfold match_component, match_open_tag.
  rewrite (match_tag_needs_prefix _ _ (contains_prefix _ _ Hc)). now apply IH.
Qed.

Lemma match_reference_no_open :
  forall s : string, contains "<sql" s = false -> match_reference s = None.
Proof.
  intros s Hc.
  assert (Hhere : match_open_tag s = None)
    by (apply match_tag_needs_prefix; now apply contains_prefix).
  unfold match_reference. destruct s as [|c s]; [now rewrite Hhere|].
  assert (Htail : match_open_tag s = None).
  { apply match_tag_needs_prefix, contains_prefix. now apply contains_tail in Hc. }
  rewrite Hhere, Htail.
  destruct c as [[] [] [] [] [] [] [] []]; reflexivity.
Qed.

Lemma findall_references_no_open :
  forall (s : string) (skip : nat),
    contains "<sql" s = false -> findall_references_from s skip = [].
Proof.
  induction s as [|c s IH]; intros skip Hc; [reflexivity|].
  cbn [findall_references_from].
  assert (Hs : contains "<sql" s = false) by now apply contains_tail in Hc.
  destruct skip as [|k]; [|now apply IH].
  rewrite (match_reference_no_open _ Hc). now apply IH.
Qed.

(** X2: a message in which the text [<sql] or the text [</sql] does not
    occur holds no fragment: [parse_sqls] raises [ValueError]. *)
Theorem parse_sqls_without_tags_raises :
  forall message : string,
    contains "<sql" message = false \/ contains "</sql" message = false ->
    parse_sqls message = Raised (ValueError "SQL not found in the response.").
Proof.
  intros message Hc. unfold parse_sqls, findall_components.
  destruct Hc as [Hopen|Hclose].
  - now rewrite findall_components_no_open.
  - now rewrite findall_components_no_close.
Qed.

Lemma parse_sqls_without_tags_raises_witness :
  parse_sqls "Here it is: <sql1>SELECT 1"
  = Raised (ValueError "SQL not found in the response.").
Proof.
  apply (parse_sqls_without_tags_raises "Here it is: <sql1>SELECT 1").
  right. reflexivity.
Defined.

(** X5: SQL in which the text [<sql] does not occur is returned unchanged
    by [replace_tag_with_table]. *)
Theorem replace_tag_with_table_without_reference :
  forall sql : string,
    contains "<sql" sql = false -> replace_tag_with_table sql = sql.
Proof.
  intros sql Hc. unfold replace_tag_with_table, findall_references.
  now rewrite findall_references_no_open.
Qed.

Lemma replace_tag_with_table_without_reference_witness :
  replace_tag_with_table "SELECT count(*) FROM (SELECT * FROM sql1) WHERE a < 3"
  = "SELECT count(*) FROM (SELECT * FROM sql1) WHERE a < 3".
Proof.
  apply (replace_tag_with_table_without_reference
           "SELECT count(*) FROM (SELECT * FROM sql1) WHERE a < 3").
  reflexivity.
Defined.

(** ** One fragment in a message *)

Lemma has_char_head :
  forall (c a : ascii) (s : string),
    has_char c (String a s) = false -> a <> c /\ has_char c s = false.
Proof.
  intros c a s Hs. simpl in Hs. apply orb_false_elim in Hs.
  destruct Hs as [Ha Hs]. split; [|exact Hs].
  intros Heq. subst a. rewrite Ascii.eqb_refl in Ha. discriminate.
Qed.

Lemma match_tag_other_head :
  forall (l0 a : ascii) (lit s : string),
    a <> l0 -> match_tag (String l0 lit) (String a s) = None.
Proof.
  intros l0 a lit s Hne. apply match_tag_needs_prefix. cbn [prefix].
  destruct (ascii_dec l0 a) as [Heq|_]; [|reflexivity].
  exfalso. apply Hne. now symmetry.
Qed.

Lemma drop_add :
  forall (a b : nat) (s : string), drop (a + b) s = drop b (drop a s).
Proof.
  induction a as [|a IH]; intros b s; simpl.
  - now destruct s.
  - destruct s as [|c s]; [now destruct b | apply IH].
Qed.

Lemma length_open_tag :
  forall ds : string, String.length (open_tag ds) = 4 + String.length ds + 1.
Proof.
  intros ds. unfold open_tag. rewrite !length_append. simpl. lia.
Qed.

Lemma length_close_tag :
  forall ds : string, String.length (close_tag ds) = 5 + String.length ds + 1.
Proof.
  intros ds. unfold close_tag. rewrite !length_append. simpl. lia.
Qed.

Lemma match_open_tag_at :
  forall ds rest : string,
    all_digits ds = true -> ds <> EmptyString ->
    match_open_tag (open_tag ds ++ rest) = Some (String.length (open_tag ds)).
Proof.
  intros ds rest Hds Hne. rewrite length_open_tag. unfold open_tag, match_open_tag.
  rewrite !append_assoc. now apply (match_tag_intro "<sql").
Qed.

Lemma match_close_tag_at :
  forall ds rest : string,
    all_digits ds = true -> ds <> EmptyString ->
    match_close_tag (close_tag ds ++ rest) = Some (String.length (close_tag ds)).
Proof.
  intros ds rest Hds Hne. rewrite length_close_tag. unfold close_tag, match_close_tag.
  rewrite !append_assoc. now apply (match_tag_intro "</sql").
Qed.

Lemma lazy_body_unfold :
  forall s : string,
    lazy_body s
    = match match_close_tag s with
      | Some m => Some (0, m)
      | None =>
          match s with
          | EmptyString => None
          | String _ s' =>
              match lazy_body s' with
              | Some (j, m) => Some (S j, m)
              | None => None
              end
          end
      end.
Proof. intros [|c s]; reflexivity. Qed.

Lemma lazy_body_after :
  forall body x : string,
    has_char "<" body = false ->
    lazy_body (body ++ x)
    = match lazy_body x with
      | Some (j, m) => Some (String.length body + j, m)
      | None => None
      end.
Proof.
  induction body as [|c body IH]; intros x Hb.
  - simpl. destruct (lazy_body x) as [[j m]|]; reflexivity.
  - apply has_char_head in Hb. destruct Hb as [Hc Hb].
    change (String c body ++ x) with (String c (body ++ x)).
    rewrite lazy_body_unfold. unfold match_close_tag.
    rewrite (match_tag_other_head "<" c "/sql" (body ++ x) Hc).
    rewrite (IH x Hb). destruct (lazy_body x) as [[j m]|]; reflexivity.
Qed.

Lemma findall_components_skip :
  forall a x : string,
    findall_components_from (a ++ x) (String.length a) = findall_components_from x 0.
Proof.
  induction a as [|c a IH]; intros x; [reflexivity | exact (IH x)].
Qed.

Lemma findall_components_before :
  forall pre x : string,
    has_char "<" pre = false ->
    findall_components_from (pre ++ x) 0 = findall_components_from x 0.
Proof.
  induction pre as [|c pre IH]; intros x Hp; [reflexivity|].
  apply has_char_head in Hp. destruct Hp as [Hc Hp].
  change (String c pre ++ x) with (String c (pre ++ x)).
  cbn [findall_components_from]. unfold match_component, match_open_tag.
  rewrite (match_tag_other_head "<" c "sql" (pre ++ x) Hc). now apply IH.
Qed.

Lemma findall_components_at :
  forall whole body x : string,
    whole <> EmptyString ->
    match_component (whole ++ x) = Some (whole, body) ->
    findall_components_from (whole ++ x) 0
    = (whole, body) :: findall_components_from x 0.
Proof.
  intros [|c w] body x Hne Hm; [contradiction|].
  change (String c w ++ x) with (String c (w ++ x)) in *.
  cbn [findall_components_from]. rewrite Hm. f_equal.
  cbn [String.length]. rewrite Nat.sub_succ, Nat.sub_0_r.
  apply findall_components_skip.
Qed.

Lemma match_component_fragment :
  forall ds1 body ds2 post : string,
    has_char "<" body = false ->
    all_digits ds1 = true -> ds1 <> EmptyString ->
    all_digits ds2 = true -> ds2 <> EmptyString ->
    match_component ((open_tag ds1 ++ body ++ close_tag ds2) ++ post)
    = Some (open_tag ds1 ++ body ++ close_tag ds2, body).
Proof.
  intros ds1 body ds2 post Hb Hd1 Hn1 Hd2 Hn2.
  rewrite !append_assoc. unfold match_component.
  rewrite (match_open_tag_at ds1 _ Hd1 Hn1), drop_app.
  rewrite (lazy_body_after body _ Hb), lazy_body_unfold.
  rewrite (match_close_tag_at ds2 post Hd2 Hn2), Nat.add_0_r.
  rewrite take_length_app. f_equal. f_equal.
  replace (open_tag ds1 ++ body ++ close_tag ds2 ++ post)
    with ((open_tag ds1 ++ body ++ close_tag ds2) ++ post)
    by (rewrite !append_assoc; reflexivity).
  replace (String.length (open_tag ds1) + String.length body
           + String.length (close_tag ds2))
    with (String.length (open_tag ds1 ++ body ++ close_tag ds2))
    by (rewrite !length_append; lia).
  apply take_length_app.
Qed.

(** X1: a message that holds one fragment, with text around it and a body
    in which [<] does not occur, is parsed into the one entry whose key is
    the name of the opening tag and whose value is the body without its
    semicolons, stripped; the number of the closing tag is not compared
    with that of the opening tag. *)
Theorem parse_sqls_single_fragment :
  forall pre ds1 body ds2 post : string,
    has_char "<" pre = false ->
    has_char "<" body = false ->
    has_char "<" post = false ->
    all_digits ds1 = true -> ds1 <> EmptyString ->
    all_digits ds2 = true -> ds2 <> EmptyString ->
    parse_sqls (pre ++ (open_tag ds1 ++ body ++ close_tag ds2) ++ post)
    = Returned [("sql" ++ ds1, strip (remove_char ";" body))].
Proof.
  intros pre ds1 body ds2 post Hpre Hbody Hpost Hd1 Hn1 Hd2 Hn2.
  assert (Hcomps :
            findall_components (pre ++ (open_tag ds1 ++ body ++ close_tag ds2) ++ post)
            = [(open_tag ds1 ++ body ++ close_tag ds2, body)]).
  { unfold findall_components. rewrite (findall_components_before pre _ Hpre).
    rewrite (findall_components_at _ body post).
    - f_equal. apply findall_components_no_open. now apply has_char_contains.
    - unfold open_tag. discriminate.
    - now apply match_component_fragment. }
  unfold parse_sqls. rewrite Hcomps. cbn [fold_left parse_sqls_step].
  assert (Hname : search_tag_name (open_tag ds1 ++ body ++ close_tag ds2)
                  = Some ("sql" ++ ds1)).
  { unfold open_tag. rewrite !append_assoc. now apply search_tag_name_of_tag. }
  rewrite Hname, replace_semicolon. reflexivity.
Qed.

Lemma parse_sqls_single_fragment_witness :
  parse_sqls ("The orders: " ++ (open_tag "1" ++ " SELECT * FROM orders; " ++ close_tag "2")
              ++ " as asked.")
  = Returned [("sql" ++ "1", strip (remove_char ";" " SELECT * FROM orders; "))].
Proof.
  apply (parse_sqls_single_fragment "The orders: " "1" " SELECT * FROM orders; " "2"
           " as asked.");
    try reflexivity; discriminate.
Defined.

(** ** One bare reference in a body *)

Lemma match_reference_elsewhere :
  forall (c : ascii) (s : string),
    c <> "<"%char ->
    (c = "("%char -> match_open_tag s = None) ->
    match_reference (String c s) = None.
Proof.
  intros c s Hlt Hparen.
  assert (Hhere : match_open_tag (String c s) = None)
    by (apply (match_tag_other_head "<" c "sql" s Hlt)).
  destruct (ascii_dec c "("%char) as [Heq|Hne].
  - subst c. unfold match_reference. rewrite (Hparen eq_refl), Hhere. reflexivity.
  - unfold match_reference. rewrite Hhere.
    destruct c as [[] [] [] [] [] [] [] []]; try reflexivity.
    exfalso. now apply Hne.
Qed.

Lemma findall_references_skip :
  forall a x : string,
    findall_references_from (a ++ x) (String.length a) = findall_references_from x 0.
Proof.
  induction a as [|c a IH]; intros x; [reflexivity | exact (IH x)].
Qed.

Lemma findall_references_before :
  forall pre x : string,
    has_char "<" pre = false ->
    last_char pre <> Some "("%char ->
    findall_references_from (pre ++ x) 0 = findall_references_from x 0.
Proof.
  induction pre as [|c pre IH]; intros x Hp Hlast; [reflexivity|].
  apply has_char_head in Hp. destruct Hp as [Hc Hp].
  change (String c pre ++ x) with (String c (pre ++ x)).
  cbn [findall_references_from].
  rewrite (match_reference_elsewhere c (pre ++ x) Hc).
  - apply IH; [exact Hp|]. destruct pre as [|d pre]; [discriminate | exact Hlast].
  - intros Hparen. destruct pre as [|d pre].
    + exfalso. apply Hlast. simpl. now rewrite Hparen.
    + apply has_char_head in Hp. destruct Hp as [Hd _].
      exact (match_tag_other_head "<" d "sql" (pre ++ x) Hd).
Qed.

Lemma match_reference_of_open_tag :
  forall (s : string) (n : nat),
    match_open_tag s = Some n ->
    match_reference s = Some (n + if prefix ")" (drop n s) then 1 else 0).
Proof.
  intros [|c s] n Hopen; [discriminate Hopen|].
  destruct (ascii_dec c "<"%char) as [Heq|Hne].
  - subst c. unfold match_reference. rewrite Hopen. reflexivity.
  - unfold match_open_tag in Hopen.
    rewrite (match_tag_other_head "<" c "sql" s Hne) in Hopen. discriminate Hopen.
Qed.

Lemma match_reference_bare :
  forall ds post : string,
    all_digits ds = true -> ds <> EmptyString ->
    prefix ")" post = false ->
    match_reference (open_tag ds ++ post) = Some (String.length (open_tag ds)).
Proof.
  intros ds post Hds Hne Hparen.
  rewrite (match_reference_of_open_tag _ _ (match_open_tag_at ds post Hds Hne)).
  rewrite drop_app, Hparen. f_equal. lia.
Qed.

Lemma findall_references_at :
  forall tag x : string,
    tag <> EmptyString ->
    match_reference (tag ++ x) = Some (String.length tag) ->
    findall_references_from (tag ++ x) 0 = tag :: findall_references_from x 0.
Proof.
  intros [|c t] x Hne Hm; [contradiction|].
  change (String c t ++ x) with (String c (t ++ x)) in *.
  cbn [findall_references_from]. rewrite Hm. f_equal.
  - change (String c (t ++ x)) with (String c t ++ x). apply take_length_app.
  - cbn [String.length]. rewrite Nat.sub_succ, Nat.sub_0_r.
    apply findall_references_skip.
Qed.

Lemma replace_from_skip :
  forall old new a x : string,
    replace_from old new (a ++ x) (String.length a) = replace_from old new x 0.
Proof.
  intros old new. induction a as [|c a IH]; intros x; [reflexivity | exact (IH x)].
Qed.

Lemma replace_from_before :
  forall (o : ascii) (old new pre x : string),
    has_char o pre = false ->
    replace_from (String o old) new (pre ++ x) 0
    = pre ++ replace_from (String o old) new x 0.
Proof.
  intros o old new. induction pre as [|c pre IH]; intros x Hp; [reflexivity|].
  apply has_char_head in Hp. destruct Hp as [Hc Hp].
  change (String c pre ++ x) with (String c (pre ++ x)).
  cbn [replace_from prefix]. destruct (ascii_dec o c) as [Heq|_].
  - exfalso. apply Hc. now symmetry.
  - simpl. f_equal. now apply IH.
Qed.

Lemma replace_from_at :
  forall (o : ascii) (old new x : string),
    replace_from (String o old) new (String o old ++ x) 0
    = new ++ replace_from (String o old) new x 0.
Proof.
  intros o old new x.
  change (String o old ++ x) with (String o (old ++ x)).
  cbn [replace_from].
  change (String o (old ++ x)) with (String o old ++ x).
  rewrite prefix_app. f_equal.
  cbn [String.length]. rewrite Nat.sub_succ, Nat.sub_0_r.
  apply replace_from_skip.
Qed.

Lemma removelast_app_single :
  forall (a : string) (c : ascii), removelast (a ++ String c EmptyString) = a.
Proof.
  induction a as [|d a IH]; intros c; [reflexivity|].
  change (String d a ++ String c EmptyString) with (String d (a ++ String c EmptyString)).
  cbn [removelast]. rewrite IH.
  destruct a; reflexivity.
Qed.

(** X6: in SQL that holds one bare reference [<sqlN>], not preceded by an
    opening parenthesis nor followed by a closing one, and no other [<],
    the reference is replaced by the subquery over the view [sqlN] and the
    rest of the text is kept. *)
Theorem replace_tag_with_table_bare_reference :
  forall pre ds post : string,
    has_char "<" pre = false ->
    has_char "<" post = false ->
    last_char pre <> Some "("%char ->
    prefix ")" post = false ->
    all_digits ds = true -> ds <> EmptyString ->
    replace_tag_with_table (pre ++ open_tag ds ++ post)
    = pre ++ subquery_over ("sql" ++ ds) ++ post.
Proof.
  intros pre ds post Hpre Hpost Hlast Hparen Hds Hne.
  assert (Htags : findall_references (pre ++ open_tag ds ++ post) = [open_tag ds]).
  { unfold findall_references.
    rewrite (findall_references_before pre _ Hpre Hlast).
    rewrite findall_references_at.
    - f_equal. apply findall_references_no_open. now apply has_char_contains.
    - unfold open_tag. discriminate.
    - now apply match_reference_bare. }
  unfold replace_tag_with_table. rewrite Htags. cbn [fold_left].
  assert (Hslice : slice_1_m1 (open_tag ds) = "sql" ++ ds).
  { unfold slice_1_m1, open_tag.
    change (drop 1 ("<sql" ++ ds ++ ">")) with ("sql" ++ ds ++ ">").
    rewrite <- append_assoc. apply removelast_app_single. }
  rewrite Hslice. fold (subquery_over ("sql" ++ ds)).
  change (open_tag ds) with (String "<" ("sql" ++ ds ++ ">")).
  unfold replace.
  rewrite (replace_from_before "<" _ _ pre _ Hpre), replace_from_at.
  rewrite <- (append_empty post) at 1.
  rewrite (replace_from_before "<" _ _ post EmptyString Hpost), append_empty.
  reflexivity.
Qed.

Lemma replace_tag_with_table_bare_reference_witness :
  replace_tag_with_table ("SELECT count(*) FROM " ++ open_tag "12" ++ " WHERE a > 3")
  = "SELECT count(*) FROM " ++ subquery_over ("sql" ++ "12") ++ " WHERE a > 3".
Proof.
  apply (replace_tag_with_table_bare_reference "SELECT count(*) FROM " "12" " WHERE a > 3");
    try reflexivity; discriminate.
Defined.

(** ** A tag given twice in one message *)

Lemma dict_set_keys_NoDup :
  forall (V : Type) (d : PyDict.dict V) (k : string) (v : V),
    NoDup (PyDict.keys d) -> NoDup (PyDict.keys (PyDict.set d k v)).
Proof.
  intros V d k v. induction d as [|[k0 v0] d IH]; intros Hd; simpl.
  - constructor; [intros [] | constructor].
  - inversion Hd as [|x l Hnotin Hrest]; subst.
    destruct (String.eqb k0 k) eqn:Hk; simpl.
    + constructor; assumption.
    + constructor; [|now apply IH].
      intros Hin. apply dict_keys_set in Hin. destruct Hin as [Heq|Hin].
      * subst k0. rewrite String.eqb_refl in Hk. discriminate.
      * contradiction.
Qed.

Lemma parse_sqls_fold_keys_NoDup :
  forall (items : list (string * string)) (d : PyDict.dict string),
    NoDup (PyDict.keys d) ->
    NoDup (PyDict.keys (fold_left parse_sqls_step items d)).
Proof.
  induction items as [|[whole body] rest IH]; intros d Hd; [exact Hd|].
  simpl. apply IH. destruct (search_tag_name whole); [|exact Hd].
  now apply dict_set_keys_NoDup.
Qed.

Lemma parse_sqls_fold_other_names :
  forall (items : list (string * string)) (d : PyDict.dict string) (k : string),
    (forall whole body, In (whole, body) items -> search_tag_name whole <> Some k) ->
    PyDict.get (fold_left parse_sqls_step items d) k = PyDict.get d k.
Proof.
  induction items as [|[whole body] rest IH]; intros d k Hother; [reflexivity|].
  simpl. rewrite IH by (intros w b Hin; apply (Hother w b); now right).
  pose proof (Hother whole body (or_introl eq_refl)) as Hname.
  destruct (search_tag_name whole) as [name|]; [|reflexivity].
  rewrite dict_get_set. destruct (String.eqb name k) eqn:Hk; [|reflexivity].
  apply String.eqb_eq in Hk. subst name. now contradiction Hname.
Qed.

(** X3: the dictionary [parse_sqls] returns has each tag once, and under a
    tag given to several fragments of the message the body kept is that of
    the last of them. *)
Theorem parse_sqls_last_fragment_wins :
  forall (message : string) (sql_dict : PyDict.dict string)
         (before after : list (string * string)) (whole body k : string),
    parse_sqls message = Returned sql_dict ->
    findall_components message = (before ++ (whole, body) :: after)%list ->
    search_tag_name whole = Some k ->
    (forall whole' body', In (whole', body') after -> search_tag_name whole' <> Some k) ->
    NoDup (PyDict.keys sql_dict)
    /\ PyDict.get sql_dict k = Some (strip (remove_char ";" body)).
Proof.
  intros message sql_dict before after whole body k Hparse Hcomps Hname Hafter.
  unfold parse_sqls in Hparse. rewrite Hcomps in Hparse.
  assert (Hd : fold_left parse_sqls_step (before ++ (whole, body) :: after)%list []
               = sql_dict).
  { destruct (before ++ (whole, body) :: after)%list eqn:Hlist.
    - now destruct before.
    - injection Hparse as Hd. exact Hd. }
  subst sql_dict. split.
  - apply parse_sqls_fold_keys_NoDup. constructor.
  - rewrite fold_left_app. cbn [fold_left].
    rewrite (parse_sqls_fold_other_names after _ k Hafter).
    unfold parse_sqls_step at 1. rewrite Hname, dict_get_set, String.eqb_refl.
    now rewrite replace_semicolon.
Qed.

Lemma parse_sqls_last_fragment_wins_witness :
  NoDup (PyDict.keys [("sql1", "SELECT b"); ("sql2", "SELECT c")])
  /\ PyDict.get [("sql1", "SELECT b"); ("sql2", "SELECT c")] "sql1"
     = Some (strip (remove_char ";" "SELECT b;")).
Proof.
  apply (parse_sqls_last_fragment_wins
           "<sql1>SELECT a</sql1><sql2>SELECT c</sql2><sql1>SELECT b;</sql1>"
           [("sql1", "SELECT b"); ("sql2", "SELECT c")]
           [("<sql1>SELECT a</sql1>", "SELECT a"); ("<sql2>SELECT c</sql2>", "SELECT c")]
           []
           "<sql1>SELECT b;</sql1>" "SELECT b;" "sql1").
  - reflexivity.
  - reflexivity.
  - reflexivity.
  - intros whole' body' [].
Defined.

(** ** Equal suffixes *)

Lemma max_from_keeps :
  forall (rest : list string) (best : string) (best_key : N),
    (forall x, In x rest ->
       exists m, int (drop 3 x) = Returned m /\ (m <= best_key)%N) ->
    max_from best best_key rest = Returned best.
Proof.
  induction rest as [|x rest IH]; intros best bk Hle; [reflexivity|].
  destruct (Hle x (or_introl eq_refl)) as (m & Hm & Hmle).
  cbn [max_from]. rewrite Hm.
  replace (bk <? m)%N with false by (symmetry; apply N.ltb_ge; exact Hmle).
  apply IH. intros y Hy. apply Hle. now right.
Qed.

Lemma max_from_reaches :
  forall (pre : list string) (best : string) (best_key : N)
         (k : string) (n : N) (post : list string),
    (best_key < n)%N ->
    (forall x, In x pre -> exists m, int (drop 3 x) = Returned m /\ (m < n)%N) ->
    int (drop 3 k) = Returned n ->
    (forall x, In x post -> exists m, int (drop 3 x) = Returned m /\ (m <= n)%N) ->
    max_from best best_key (pre ++ k :: post) = Returned k.
Proof.
  induction pre as [|x pre IH]; intros best bk k n post Hbk Hpre Hk Hpost.
  - cbn [app max_from]. rewrite Hk.
    replace (bk <? n)%N with true by (symmetry; apply N.ltb_lt; exact Hbk).
    now apply max_from_keeps.
  - destruct (Hpre x (or_introl eq_refl)) as (m & Hm & Hmlt).
    assert (Hpre' : forall y, In y pre ->
                      exists m', int (drop 3 y) = Returned m' /\ (m' < n)%N)
      by (intros y Hy; apply Hpre; now right).
    cbn [app max_from]. rewrite Hm. destruct (bk <? m)%N.
    + now apply (IH x m k n post).
    + now apply (IH best bk k n post).
Qed.

(** X7: among the tags of a message the one chosen as current is the
    first, in the order of the dictionary, whose suffix has the greatest
    value: a later tag with the same value, such as [sql2] after [sql02],
    does not take its place. *)
Theorem largest_key_is_first_greatest :
  forall (before after : list string) (k : string) (n : N),
    int (drop 3 k) = Returned n ->
    (forall x, In x before ->
       exists m, int (drop 3 x) = Returned m /\ (m < n)%N) ->
    (forall x, In x after ->
       exists m, int (drop 3 x) = Returned m /\ (m <= n)%N) ->
    largest_key (before ++ k :: after) = Returned k.
Proof.
  intros [|x before] after k n Hk Hbefore Hafter.
  - cbn [app largest_key]. rewrite Hk. now apply max_from_keeps.
  - destruct (Hbefore x (or_introl eq_refl)) as (m & Hm & Hmlt).
    cbn [app largest_key]. rewrite Hm.
    apply (max_from_reaches before x m k n after); try assumption.
    intros y Hy. apply Hbefore. now right.
Qed.

Lemma largest_key_is_first_greatest_witness :
  largest_key (["sql1"] ++ "sql02" :: ["sql2"; "sql002"]) = Returned "sql02".
Proof.
  apply (largest_key_is_first_greatest ["sql1"] ["sql2"; "sql002"] "sql02" 2%N).
  - reflexivity.
  - intros x [Hx|[]]. subst x. exists 1%N. split; [reflexivity | lia].
  - intros x [Hx|[Hx|[]]]; subst x; exists 2%N; (split; [reflexivity | lia]).
Defined.

(** ** Replies of the SQL generator *)

Lemma shown_begins_with_sql :
  forall x : string, prefix ("SQL:" ++ nl) ("SQL:" ++ nl ++ x) = true.
Proof.
  intros x. rewrite <- append_assoc. apply prefix_app.
Qed.

(** X8: whenever [generate_reply] of the SQL generator returns, the reply
    carries the model's output as its content, is an assistant message
    generated by [SQLGenerator], and is marked as a termination message
    exactly when the output holds the termination token; a reply that is no
    termination message has a display text beginning with [SQL:]. *)
Theorem sql_reply_shape :
  forall (D : Type) (VS : ViewStore D) (sqlglot_pretty : string -> Exc string)
         (generate_llm_reply : D -> list AgentMessage -> string)
         (self : SQLGeneratorAgent) (db db' : D) (messages : list AgentMessage)
         (reply : AgentMessage),
    sql_generate_reply sqlglot_pretty generate_llm_reply self db messages
    = (Returned reply, db') ->
    content reply = generate_llm_reply db messages
    /\ role reply = "assistant"
    /\ generating_agent reply = Some "SQLGenerator"
    /\ is_termination_message reply
       = has_termination_condition (generate_llm_reply db messages)
           (sql_termination_message self)
    /\ (is_termination_message reply = true -> db' = db /\ display_content reply = None)
    /\ (is_termination_message reply = false ->
        exists shown, display_content reply = Some shown
                      /\ prefix ("SQL:" ++ nl) shown = true).
Proof.
  intros D VS pretty llm self db db' messages reply. unfold sql_generate_reply.
  destruct (has_termination_condition (llm db messages) (sql_termination_message self)).
  - intros Heq. injection Heq as Hreply Hdb. subst reply db'.
    do 4 (split; [reflexivity|]). split.
    + intros _. now split.
    + intros Hfalse. discriminate Hfalse.
  - destruct (parse_sqls (llm db messages)) as [sql_dict|e]; [|discriminate].
    destruct (largest_key (PyDict.keys sql_dict)) as [largest_k|e]; [|discriminate].
    destruct (register_fragments db sql_dict) as [[[]|e] db1]; [|discriminate].
    destruct (get_table db1 largest_k) as [view_table|]; [|discriminate].
    unfold result_message, prettify_sql, try_except, exc_bind.
    destruct (pretty (view_sql view_table)) as [last_sql|e].
    + destruct (run_sql_to_df db1 last_sql) as [df|e];
        intros Heq; injection Heq as Hreply Hdb; subst reply;
        do 4 (split; [reflexivity|]);
        (split; [intros Htrue; discriminate Htrue|]);
        intros _; eexists; (split; [reflexivity|]);
        apply shown_begins_with_sql.
    + destruct (run_sql_to_df db1 (view_sql view_table)) as [df|e'];
        intros Heq; injection Heq as Hreply Hdb; subst reply;
        do 4 (split; [reflexivity|]);
        (split; [intros Htrue; discriminate Htrue|]);
        intros _; eexists; (split; [reflexivity|]);
        apply shown_begins_with_sql.
Qed.

Lemma sql_reply_shape_witness :
  content (new_message "assistant" "Bye <exit>") = "Bye <exit>"
  /\ is_termination_message
       {| role := "assistant"; content := "Bye <exit>"; display_content := None;
          tool_calls := None; generating_agent := Some sql_agent_name;
          sending_agent := None; receiving_agent := None;
          is_termination_message := true; requires_response := false;
          requires_execution := false |}
     = has_termination_condition "Bye <exit>" "<exit>".
Proof.
  destruct (sql_reply_shape ListViews.Views _ (fun s => Returned s)
              (fun _ _ => "Bye <exit>")
              {| sql_termination_message := "<exit>"; sql_silent := true |}
              [] [] []
              {| role := "assistant"; content := "Bye <exit>"; display_content := None;
                 tool_calls := None; generating_agent := Some sql_agent_name;
                 sending_agent := None; receiving_agent := None;
                 is_termination_message := true; requires_response := false;
                 requires_execution := false |} eq_refl)
    as (Hcontent & _ & _ & Hterm & _).
  split; [reflexivity | exact Hterm].
Defined.

(** X9: a failure of the query engine on the preview does not fail the
    turn: the message for the current view is always returned, with the
    prettified SQL alone as display text when the engine raises, and with
    the first five rows after it when the engine answers. *)
Theorem preview_failure_is_not_fatal :
  forall (D : Type) (VS : ViewStore D) (sqlglot_pretty : string -> Exc string)
         (db : D) (output : string) (view_table : Table),
  exists (reply : AgentMessage) (last_sql : string),
    prettify_sql sqlglot_pretty (view_sql view_table) = Returned last_sql
    /\ result_message sqlglot_pretty db output view_table = Returned reply
    /\ (forall e, run_sql_to_df db last_sql = Raised e ->
          display_content reply = Some ("SQL:" ++ nl ++ last_sql))
    /\ (forall df, run_sql_to_df db last_sql = Returned df ->
          display_content reply
          = Some (("SQL:" ++ nl ++ last_sql) ++ nl ++ nl ++ "Table:" ++ nl
                  ++ df_to_string (df_head 5 df))).
Proof.
  intros D VS pretty db output view_table.
  destruct (prettify_sql pretty (view_sql view_table)) as [last_sql|e] eqn:Hpretty.
  - unfold result_message. rewrite Hpretty. cbn [exc_bind].
    destruct (run_sql_to_df db last_sql) as [df|e] eqn:Hrun; cbn [exc_bind try_except];
      eexists; exists last_sql; (split; [reflexivity|]); (split; [reflexivity|]); split.
    + intros e He. rewrite Hrun in He. discriminate He.
    + intros df' Hdf. rewrite Hrun in Hdf. injection Hdf as Hdf. subst df'.
      reflexivity.
    + intros e' He. reflexivity.
    + intros df Hdf. rewrite Hrun in Hdf. discriminate Hdf.
  - exfalso. unfold prettify_sql, try_except in Hpretty.
    destruct (pretty (view_sql view_table)); discriminate Hpretty.
Qed.

Lemma preview_failure_is_not_fatal_witness :
  exists (reply : AgentMessage) (last_sql : string),
    prettify_sql (fun s => Returned s) "SELECT 1" = Returned last_sql
    /\ result_message (fun s => Returned s) ([] : ListViews.Views) "<sql1>SELECT 1</sql1>"
         "SELECT 1" = Returned reply
    /\ (forall e, run_sql_to_df ([] : ListViews.Views) last_sql = Raised e ->
          display_content reply = Some ("SQL:" ++ nl ++ last_sql))
    /\ (forall df, run_sql_to_df ([] : ListViews.Views) last_sql = Returned df ->
          display_content reply
          = Some (("SQL:" ++ nl ++ last_sql) ++ nl ++ nl ++ "Table:" ++ nl
                  ++ df_to_string (df_head 5 df))).
Proof.
  exact (preview_failure_is_not_fatal ListViews.Views _ (fun s => Returned s)
           [] "<sql1>SELECT 1</sql1>" "SELECT 1").
Defined.

(** ** More on the rename commit *)

Section RenameCommitCases.

Context {D : Type} `{RemapStore D}.
Variable json_loads : string -> Exc Payload.

Lemma check_duplicates_distinct :
  forall (error : option string) (tbl : string) (col_map : ColMap),
    NoDup (PyDict.values col_map) ->
    check_duplicates error (tbl, col_map) = error.
Proof.
  intros error tbl col_map Hnodup. unfold check_duplicates, set_size.
  rewrite (nodup_fixed_point string_dec Hnodup), Nat.eqb_refl. reflexivity.
Qed.

Lemma check_duplicates_fold_distinct :
  forall (items : list (string * ColMap)) (error : option string),
    (forall tbl col_map, In (tbl, col_map) items -> NoDup (PyDict.values col_map)) ->
    fold_left check_duplicates items error = error.
Proof.
  induction items as [|[tbl col_map] rest IH]; intros error Hall; [reflexivity|].
  cbn [fold_left]. rewrite check_duplicates_distinct by (apply (Hall tbl); now left).
  apply IH. intros t c Hin. apply (Hall t). now right.
Qed.

Lemma check_duplicates_fold_none :
  forall (items : list (string * ColMap)),
    fold_left check_duplicates items None = None ->
    forall tbl col_map, In (tbl, col_map) items -> NoDup (PyDict.values col_map).
Proof.
  intros items Hnone tbl col_map Hin.
  destruct (set_size (PyDict.values col_map) =? List.length (PyDict.values col_map))
    eqn:Hsize; [apply set_size_full_NoDup; now apply Nat.eqb_eq|].
  assert (Hdup : ~ NoDup (PyDict.values col_map)).
  { intros Hnodup. apply Nat.eqb_neq in Hsize. apply Hsize. unfold set_size.
    now rewrite (nodup_fixed_point string_dec Hnodup). }
  exfalso.
  destruct (check_duplicates_fold items items None (fun _ Hi => Hi)) as (t & c & v & _ & _ & Hsome).
  - right. now exists tbl, col_map.
  - rewrite Hnone in Hsome. discriminate Hsome.
Qed.

Lemma apply_remaps_identity :
  forall (items : list (string * ColMap)) (db : D),
    (forall tbl col_map, In (tbl, col_map) items -> is_identity_map col_map = true) ->
    apply_remaps db items = (None, db).
Proof.
  induction items as [|[tbl col_map] rest IH]; intros db Hall; [reflexivity|].
  cbn [apply_remaps].
  assert (Hid : existsb (fun kv => negb (String.eqb (fst kv) (snd kv))) col_map = false).
  { pose proof (Hall tbl col_map (or_introl eq_refl)) as Hmap.
    unfold is_identity_map in Hmap. clear - Hmap.
    induction col_map as [|kv col_map IHc]; [reflexivity|].
    simpl in *. apply andb_prop in Hmap. destruct Hmap as [Hkv Hrest].
    rewrite Hkv. simpl. now apply IHc. }
  rewrite Hid. apply IH. intros t c Hin. apply (Hall t). now right.
Qed.

Lemma identity_map_values :
  forall col_map : ColMap,
    is_identity_map col_map = true -> PyDict.values col_map = PyDict.keys col_map.
Proof.
  induction col_map as [|[k v] col_map IH]; intros Hid; [reflexivity|].
  simpl in Hid. apply andb_prop in Hid. destruct Hid as [Hkv Hrest].
  apply String.eqb_eq in Hkv. simpl in Hkv. subst v.
  unfold PyDict.values, PyDict.keys in *. simpl. f_equal. now apply IH.
Qed.

Lemma commit_after_decoding :
  forall (messages : list AgentMessage) (last_message : AgentMessage)
         (agent_name json_text : string) (payload : Payload) (db : D)
         (can_reask_again : bool),
    last_item messages = Some last_message ->
    json_content_of (content last_message) = Returned json_text ->
    json_loads json_text = Returned payload ->
    parse_rename_and_update_db json_loads messages agent_name db can_reask_again
    = match fold_left check_duplicates payload None with
      | Some error => (Returned (rejection_message agent_name error),
                       remove_base_table_remaps db)
      | None =>
          match apply_remaps db payload with
          | (Some error, db1) => (Returned (rejection_message agent_name error),
                                  remove_base_table_remaps db1)
          | (None, db1) =>
              match check_fks db1 with
              | Some error => (Returned (rejection_message agent_name error),
                               remove_base_table_remaps db1)
              | None => (Returned (confirmation_message agent_name), db1)
              end
          end
      end.
Proof.
  intros messages last_message agent_name json_text payload db can Hlast Htext Hloads.
  unfold parse_rename_and_update_db. rewrite Hlast.
  rewrite (decode_content_decoded json_loads _ _ _ Htext Hloads).
  cbn [content_items].
  destruct (fold_left check_duplicates payload None) as [error|]; [reflexivity|].
  destruct (apply_remaps db payload) as [[error|] db1]; [reflexivity|].
  destruct (check_fks db1); reflexivity.
Qed.

End RenameCommitCases.

(** X10: a payload whose mappings all send every column to itself records
    no remap, be its tables known to the database or not: the outcome is
    decided by the foreign keys of the database as it stands, which is left
    untouched when they match. *)
Theorem identity_payload_applies_nothing :
  forall (D : Type) (RS : RemapStore D) (json_loads : string -> Exc Payload)
         (messages : list AgentMessage) (last_message : AgentMessage)
         (agent_name json_text : string) (payload : Payload) (db : D)
         (can_reask_again : bool),
    last_item messages = Some last_message ->
    json_content_of (content last_message) = Returned json_text ->
    json_loads json_text = Returned payload ->
    (forall tbl col_map, In (tbl, col_map) payload ->
       NoDup (PyDict.keys col_map) /\ is_identity_map col_map = true) ->
    parse_rename_and_update_db json_loads messages agent_name db can_reask_again
    = match check_fks db with
      | Some error => (Returned (rejection_message agent_name error),
                       remove_base_table_remaps db)
      | None => (Returned (confirmation_message agent_name), db)
      end.
Proof.
  intros D RS json_loads messages last_message agent_name json_text payload db can
    Hlast Htext Hloads Hid.
  rewrite (commit_after_decoding json_loads _ _ _ _ _ _ _ Hlast Htext Hloads).
  rewrite check_duplicates_fold_distinct.
  - rewrite apply_remaps_identity; [reflexivity|].
    intros tbl col_map Hin. now apply (Hid tbl).
  - intros tbl col_map Hin. destruct (Hid tbl col_map Hin) as [Hkeys Hmap].
    now rewrite (identity_map_values col_map Hmap).
Qed.

Lemma identity_payload_applies_nothing_witness :
  parse_rename_and_update_db (fun _ => Returned [("invoices", [("id", "id"); ("total", "total")])])
    [new_message "user" "{...}"] "SchemaRenamer" shop true
  = match check_fks shop with
    | Some error => (Returned (rejection_message "SchemaRenamer" error),
                     remove_base_table_remaps shop)
    | None => (Returned (confirmation_message "SchemaRenamer"), shop)
    end.
Proof.
  apply (identity_payload_applies_nothing SchemaStore.Store _
           (fun _ => Returned [("invoices", [("id", "id"); ("total", "total")])])
           [new_message "user" "{...}"] (new_message "user" "{...}")
           "SchemaRenamer" "{...}" [("invoices", [("id", "id"); ("total", "total")])]
           shop true eq_refl eq_refl eq_refl).
  intros tbl col_map [Heq|[]]. injection Heq as _ Hmap. subst col_map.
  split; [|reflexivity].
  repeat constructor; simpl; intuition discriminate.
Defined.

(** X11: a call that returns without asking for a response returns the
    confirmation, and then no foreign key of the database it leaves is
    unmatched and no table of the payload gives one target name to two
    columns. *)
Theorem accepted_commit_is_consistent :
  forall (D : Type) (RS : RemapStore D) (json_loads : string -> Exc Payload)
         (messages : list AgentMessage) (last_message : AgentMessage)
         (agent_name json_text : string) (payload : Payload) (db db' : D)
         (can_reask_again : bool) (reply : AgentMessage),
    last_item messages = Some last_message ->
    json_content_of (content last_message) = Returned json_text ->
    json_loads json_text = Returned payload ->
    parse_rename_and_update_db json_loads messages agent_name db can_reask_again
    = (Returned reply, db') ->
    requires_response reply = false ->
    reply = confirmation_message agent_name
    /\ get_non_matching_fks (table_as_dict db') = []
    /\ forall tbl col_map, In (tbl, col_map) payload -> NoDup (PyDict.values col_map).
Proof.
  intros D RS json_loads messages last_message agent_name json_text payload db db'
    can reply Hlast Htext Hloads Hrun Hresp.
  rewrite (commit_after_decoding json_loads _ _ _ _ _ _ _ Hlast Htext Hloads) in Hrun.
  destruct (fold_left check_duplicates payload None) as [error|] eqn:Hdups.
  { injection Hrun as Hreply _. subst reply. discriminate Hresp. }
  destruct (apply_remaps db payload) as [[error|] db1].
  { injection Hrun as Hreply _. subst reply. discriminate Hresp. }
  unfold check_fks in Hrun.
  destruct (get_non_matching_fks (table_as_dict db1)) as [|p ps] eqn:Hfks.
  - injection Hrun as Hreply Hdb. subst reply db'. split; [reflexivity|].
    split; [exact Hfks|]. now apply check_duplicates_fold_none.
  - injection Hrun as Hreply _. subst reply. discriminate Hresp.
Qed.

Lemma accepted_commit_is_consistent_witness :
  confirmation_message "SchemaRenamer" = confirmation_message "SchemaRenamer"
  /\ get_non_matching_fks
       (table_as_dict
          (snd (parse_rename_and_update_db example_json_loads
                  [new_message "user" scenario_a_text] "SchemaRenamer" shop true)))
     = []
  /\ forall tbl col_map,
       In (tbl, col_map) scenario_a_payload -> NoDup (PyDict.values col_map).
Proof.
  apply (accepted_commit_is_consistent SchemaStore.Store _ example_json_loads
           [new_message "user" scenario_a_text] (new_message "user" scenario_a_text)
           "SchemaRenamer" scenario_a_text scenario_a_payload shop
           (snd (parse_rename_and_update_db example_json_loads
                   [new_message "user" scenario_a_text] "SchemaRenamer" shop true))
           true (confirmation_message "SchemaRenamer"));
    reflexivity.
Defined.

(** ** The fenced block *)

Lemma lazy_until_none :
  forall close s : string, contains close s = false -> Fence.lazy_until close s = None.
Proof.
  intros close. induction s as [|c s IH]; intros Hc.
  - cbn [Fence.lazy_until]. rewrite (contains_prefix _ _ Hc). reflexivity.
  - cbn [Fence.lazy_until]. rewrite (contains_prefix _ _ Hc).
    rewrite IH; [reflexivity|]. now apply contains_tail in Hc.
Qed.

Lemma findall_fences_unclosed :
  forall (s : string) (skip : nat),
    contains Fence.fence_close s = false -> Fence.findall_fences_from s skip = [].
Proof.
  induction s as [|c s IH]; intros skip Hc; [reflexivity|].
  cbn [Fence.findall_fences_from].
  assert (Hs : contains Fence.fence_close s = false) by now apply contains_tail in Hc.
  destruct skip as [|k]; [|now apply IH].
  unfold Fence.match_fence.
  destruct (prefix Fence.fence_open (String c s)); [|now apply IH].
  rewrite (lazy_until_none _ _ (contains_drop _ _ _ Hc)). now apply IH.
Qed.

(** X12: when the last message holds the marker of a fenced block but
    nowhere a new line followed by the closing fence, no block is found and
    the call raises [IndexError], which it does not catch; the database is
    untouched. *)
Theorem unclosed_fence_raises_index_error :
  forall (D : Type) (RS : RemapStore D) (json_loads : string -> Exc Payload)
         (messages : list AgentMessage) (last_message : AgentMessage)
         (agent_name : string) (db : D) (can_reask_again : bool),
    last_item messages = Some last_message ->
    contains "```json" (content last_message) = true ->
    contains Fence.fence_close (content last_message) = false ->
    parse_rename_and_update_db json_loads messages agent_name db can_reask_again
    = (Raised (IndexError "list index out of range"), db).
Proof.
  intros D RS json_loads messages last_message agent_name db can Hlast Hopen Hclose.
  unfold parse_rename_and_update_db, decode_content, json_content_of.
  rewrite Hlast, Hopen. unfold Fence.findall_fences.
  rewrite (findall_fences_unclosed _ 0 Hclose). reflexivity.
Qed.

Lemma unclosed_fence_raises_index_error_witness :
  parse_rename_and_update_db example_json_loads
    [new_message "user" ("```json " ++ scenario_a_text ++ " ```")]
    "SchemaRenamer" shop true
  = (Raised (IndexError "list index out of range"), shop).
Proof.
  apply (unclosed_fence_raises_index_error SchemaStore.Store _ example_json_loads
           [new_message "user" ("```json " ++ scenario_a_text ++ " ```")]
           (new_message "user" ("```json " ++ scenario_a_text ++ " ```"))
           "SchemaRenamer" shop true);
    reflexivity.
Defined.

(** ** Which error is reported *)

Lemma first_repeated_is_duplicate :
  forall (vals : list string) (value : string),
    first_repeated vals [] = Some value ->
    (set_size vals =? List.length vals) = false.
Proof.
  intros vals value Hrep. apply Nat.eqb_neq. intros Hsize.
  apply set_size_full_NoDup in Hsize.
  destruct (first_repeated_some _ _ _ Hrep) as [[[] _]|Hcount].
  pose proof (proj1 (NoDup_count_occ string_dec vals) Hsize value). lia.
Qed.

(** X13: when several tables of the payload repeat a target name, the
    rejection names the last of them, in the order of the payload, and in
    it the first value that repeats an earlier one; no remap is recorded
    and the pending ones are removed. *)
Theorem last_duplicate_table_is_reported :
  forall (D : Type) (RS : RemapStore D) (json_loads : string -> Exc Payload)
         (messages : list AgentMessage) (last_message : AgentMessage)
         (agent_name json_text : string) (db : D) (can_reask_again : bool)
         (before after : Payload) (tbl value : string) (col_map : ColMap),
    last_item messages = Some last_message ->
    json_content_of (content last_message) = Returned json_text ->
    json_loads json_text = Returned (before ++ (tbl, col_map) :: after)%list ->
    first_repeated (PyDict.values col_map) [] = Some value ->
    (forall tbl' col_map', In (tbl', col_map') after ->
       NoDup (PyDict.values col_map')) ->
    parse_rename_and_update_db json_loads messages agent_name db can_reask_again
    = (Returned (rejection_message agent_name (duplicate_message tbl value)),
       remove_base_table_remaps db).
Proof.
  intros D RS json_loads messages last_message agent_name json_text db can
    before after tbl value col_map Hlast Htext Hloads Hrep Hafter.
  rewrite (commit_after_decoding json_loads _ _ _ _ _ _ _ Hlast Htext Hloads).
  rewrite fold_left_app. cbn [fold_left].
  rewrite (check_duplicates_fold_distinct after _ Hafter).
  unfold check_duplicates at 1.
  rewrite (first_repeated_is_duplicate _ _ Hrep), Hrep. reflexivity.
Qed.

Lemma last_duplicate_table_is_reported_witness :
  parse_rename_and_update_db
    (fun _ => Returned ([("orders", [("oid", "id"); ("cust_id", "id")])]
                        ++ ("customers", [("id", "key"); ("name", "label"); ("city", "key");
                                          ("zip", "label")])
                        :: [("items", [("sku", "code")])])%list)
    [new_message "user" "{...}"] "SchemaRenamer" shop true
  = (Returned (rejection_message "SchemaRenamer" (duplicate_message "customers" "key")),
     remove_base_table_remaps shop).
Proof.
  apply (last_duplicate_table_is_reported SchemaStore.Store _ _
           [new_message "user" "{...}"] (new_message "user" "{...}")
           "SchemaRenamer" "{...}" shop true
           [("orders", [("oid", "id"); ("cust_id", "id")])]
           [("items", [("sku", "code")])]
           "customers" "key"
           [("id", "key"); ("name", "label"); ("city", "key"); ("zip", "label")]).
  - reflexivity.
  - reflexivity.
  - reflexivity.
  - reflexivity.
  - intros tbl' col_map' [Heq|[]]. injection Heq as _ Hmap. subst col_map'.
    repeat constructor. simpl. tauto.
Defined.

(** X14: when recording the remap of a table raises, the tables before it
    having only identity mappings and no table repeating a target name, the
    rejection names that table and carries the text of the exception, the
    tables after it are not looked at, and the remaps are removed from the
    database the failed call left. *)
Theorem failed_remap_is_reported :
  forall (D : Type) (RS : RemapStore D) (json_loads : string -> Exc Payload)
         (messages : list AgentMessage) (last_message : AgentMessage)
         (agent_name json_text : string) (db db1 : D) (can_reask_again : bool)
         (before after : Payload) (tbl : string) (col_map : ColMap) (e : Exception),
    last_item messages = Some last_message ->
    json_content_of (content last_message) = Returned json_text ->
    json_loads json_text = Returned (before ++ (tbl, col_map) :: after)%list ->
    (forall tbl' col_map', In (tbl', col_map') (before ++ (tbl, col_map) :: after)%list ->
       NoDup (PyDict.values col_map')) ->
    (forall tbl' col_map', In (tbl', col_map') before -> is_identity_map col_map' = true) ->
    is_identity_map col_map = false ->
    add_base_table_column_remap db tbl col_map = (Raised e, db1) ->
    parse_rename_and_update_db json_loads messages agent_name db can_reask_again
    = (Returned (rejection_message agent_name
                   ("Error adding the column remapping for table " ++ tbl ++ "."
                    ++ nl ++ exception_str e)),
       remove_base_table_remaps db1).
Proof.
  intros D RS json_loads messages last_message agent_name json_text db db1 can
    before after tbl col_map e Hlast Htext Hloads Hnodup Hbefore Hmap Hadd.
  rewrite (commit_after_decoding json_loads _ _ _ _ _ _ _ Hlast Htext Hloads).
  rewrite (check_duplicates_fold_distinct _ _ Hnodup).
  assert (Happly : apply_remaps db (before ++ (tbl, col_map) :: after)%list
                   = (Some ("Error adding the column remapping for table " ++ tbl
                            ++ "." ++ nl ++ exception_str e), db1)).
  { clear Hnodup Hloads. induction before as [|[t c] before IH].
    - cbn [app apply_remaps].
      assert (Hex : existsb (fun kv => negb (String.eqb (fst kv) (snd kv))) col_map = true).
      { unfold is_identity_map in Hmap. clear - Hmap.
        induction col_map as [|kv col_map IHc]; [discriminate Hmap|].
        simpl in *. destruct (String.eqb (fst kv) (snd kv)); simpl in *;
          [now apply IHc | reflexivity]. }
      rewrite Hex, Hadd. reflexivity.
    - cbn [app apply_remaps].
      assert (Hex : existsb (fun kv => negb (String.eqb (fst kv) (snd kv))) c = false).
      { pose proof (Hbefore t c (or_introl eq_refl)) as Hc.
        unfold is_identity_map in Hc. clear - Hc.
        induction c as [|kv c IHc]; [reflexivity|].
        simpl in *. apply andb_prop in Hc. destruct Hc as [Hkv Hrest].
        rewrite Hkv. simpl. now apply IHc. }
      rewrite Hex. apply IH. intros t' c' Hin. apply (Hbefore t'). now right. }
  rewrite Happly. reflexivity.
Qed.

Lemma failed_remap_is_reported_witness :
  parse_rename_and_update_db
    (fun _ => Returned ([("orders", [("oid", "oid")])]
                        ++ ("invoices", [("id", "invoice_id")])
                        :: [("customers", [("id", "cust_id")])])%list)
    [new_message "user" "{...}"] "SchemaRenamer" shop true
  = (Returned (rejection_message "SchemaRenamer"
                 ("Error adding the column remapping for table " ++ "invoices" ++ "."
                  ++ nl ++ exception_str
                            (InvalidRemapError "Table invoices is not in the database."))),
     remove_base_table_remaps shop).
Proof.
  apply (failed_remap_is_reported SchemaStore.Store _ _
           [new_message "user" "{...}"] (new_message "user" "{...}")
           "SchemaRenamer" "{...}" shop shop true
           [("orders", [("oid", "oid")])]
           [("customers", [("id", "cust_id")])]
           "invoices" [("id", "invoice_id")]
           (InvalidRemapError "Table invoices is not in the database.")).
  - reflexivity.
  - reflexivity.
  - reflexivity.
  - intros tbl' col_map' [Heq|[Heq|[Heq|[]]]]; injection Heq as _ Hmap; subst col_map';
      repeat constructor; simpl; tauto.
  - intros tbl' col_map' [Heq|[]]. injection Heq as _ Hmap. subst col_map'. reflexivity.
  - reflexivity.
  - reflexivity.
Defined.

(** ** What [receive] adds to the history *)

(** X15: [receive] of the SQL generator adds to the history kept for the
    sender the message received, under the role [user], and after it the
    reply, under the role [assistant], when [generate_reply] returns one;
    when [generate_reply] raises only the received message is added.  The
    histories kept for other partners are untouched. *)
Theorem sql_receive_history :
  forall (D : Type) (VS : ViewStore D) (sqlglot_pretty : string -> Exc string)
         (generate_llm_reply : D -> list AgentMessage -> string)
         (self : SQLGeneratorAgent) (st : AgentState D) (message : AgentMessage)
         (sender partner : string),
    let asked := (get_messages (history st) sender ++ [set_role "user" message])%list in
    let outcome := sql_generate_reply sqlglot_pretty generate_llm_reply self
                     (database st) asked in
    let st' := snd (sql_receive sqlglot_pretty generate_llm_reply self st message sender) in
    database st' = snd outcome
    /\ get_messages (history st') partner
       = if String.eqb sender partner
         then (asked ++ match fst outcome with
                        | Returned reply => [set_role "assistant" reply]
                        | Raised _ => []
                        end)%list
         else get_messages (history st) partner.
Proof.
  intros D VS pretty llm self st message sender partner asked outcome st'.
  subst st' outcome asked. unfold sql_receive.
  rewrite get_messages_add_message, String.eqb_refl.
  destruct (sql_generate_reply pretty llm self (database st)
              (get_messages (history st) sender ++ [set_role "user" message])%list)
    as [[reply|e] db]; cbn [sql_send fst snd history database].
  - split; [reflexivity|]. rewrite !get_messages_add_message, String.eqb_refl.
    destruct (String.eqb sender partner); reflexivity.
  - split; [reflexivity|]. rewrite get_messages_add_message.
    destruct (String.eqb sender partner); [|reflexivity].
    now rewrite app_nil_r.
Qed.

(** ** Messages made of fragments *)

Lemma fragment_ok_inv :
  forall pre ds1 body ds2 : string,
    fragment_ok (pre, ds1, body, ds2) = true ->
    has_char "<" pre = false /\ has_char "<" body = false
    /\ all_digits ds1 = true /\ ds1 <> EmptyString
    /\ all_digits ds2 = true /\ ds2 <> EmptyString.
Proof.
  intros pre ds1 body ds2 Hok. unfold fragment_ok in Hok.
  repeat (apply andb_prop in Hok; destruct Hok as [Hok ?]).
  repeat match goal with
         | H : negb _ = true |- _ => apply negb_true_iff in H
         end.
  repeat split; try assumption.
  - intros Heq. subst ds1. discriminate.
  - intros Heq. subst ds2. discriminate.
Qed.

Lemma findall_components_rendered :
  forall (fragments : list Fragment) (post : string),
    forallb fragment_ok fragments = true ->
    has_char "<" post = false ->
    findall_components_from (render_fragments fragments post) 0
    = map (fun f => (fragment_text f, fragment_body f)) fragments.
Proof.
  induction fragments as [|[[[pre ds1] body] ds2] rest IH]; intros post Hok Hpost.
  - simpl. apply findall_components_no_open. now apply has_char_contains.
  - cbn [forallb] in Hok. apply andb_prop in Hok. destruct Hok as [Hf Hrest].
    destruct (fragment_ok_inv _ _ _ _ Hf) as (Hpre & Hbody & Hd1 & Hn1 & Hd2 & Hn2).
    cbn [render_fragments map fragment_text fragment_body].
    rewrite (findall_components_before pre _ Hpre).
    rewrite (findall_components_at _ body).
    + f_equal. now apply IH.
    + unfold open_tag. discriminate.
    + now apply match_component_fragment.
Qed.

(** X4: a message written as fragments, each with its text before, its
    opening tag, a body and a closing tag, and no [<] outside the tags, is
    cut by [parse_sqls] into exactly these fragments, in order: the
    dictionary is the one obtained by storing, fragment after fragment, the
    body without semicolons and stripped under the name of the opening
    tag. *)
Theorem parse_sqls_rendered_fragments :
  forall (first : Fragment) (others : list Fragment) (post : string),
    forallb fragment_ok (first :: others) = true ->
    has_char "<" post = false ->
    findall_components (render_fragments (first :: others) post)
    = map (fun f => (fragment_text f, fragment_body f)) (first :: others)
    /\ parse_sqls (render_fragments (first :: others) post)
       = Returned
           (fold_left
              (fun d f =>
                 let '(_, ds1, body, _) := f in
                 PyDict.set d ("sql" ++ ds1) (strip (remove_char ";" body)))
              (first :: others) []).
Proof.
  intros first others post Hok Hpost.
  pose proof (findall_components_rendered (first :: others) post Hok Hpost) as Hcomps.
  split; [exact Hcomps|].
  unfold parse_sqls, findall_components. rewrite Hcomps.
  cbn [map]. f_equal.
  change ((fragment_text first, fragment_body first)
          :: map (fun f => (fragment_text f, fragment_body f)) others)
    with (map (fun f => (fragment_text f, fragment_body f)) (first :: others)).
  generalize (@nil (string * string)) as d.
  revert Hok. generalize (first :: others) as fragments. clear.
  induction fragments as [|[[[pre ds1] body] ds2] rest IH]; intros Hok d; [reflexivity|].
  cbn [forallb] in Hok. apply andb_prop in Hok. destruct Hok as [Hf Hrest].
  destruct (fragment_ok_inv _ _ _ _ Hf) as (_ & _ & Hd1 & Hn1 & _ & _).
  cbn [map fold_left fragment_text fragment_body parse_sqls_step].
  assert (Hname : search_tag_name (open_tag ds1 ++ body ++ close_tag ds2)
                  = Some ("sql" ++ ds1)).
  { unfold open_tag. rewrite !append_assoc. now apply search_tag_name_of_tag. }
  rewrite Hname, replace_semicolon. now apply IH.
Qed.

Lemma parse_sqls_rendered_fragments_witness :
  findall_components
    (render_fragments
       [("First ", "1", "SELECT * FROM orders;", "1");
        (" then ", "2", " SELECT count(*) FROM sql1 ", "2")] " done.")
  = map (fun f => (fragment_text f, fragment_body f))
      [("First ", "1", "SELECT * FROM orders;", "1");
       (" then ", "2", " SELECT count(*) FROM sql1 ", "2")]
  /\ parse_sqls
       (render_fragments
          [("First ", "1", "SELECT * FROM orders;", "1");
           (" then ", "2", " SELECT count(*) FROM sql1 ", "2")] " done.")
     = Returned
         (fold_left
            (fun d (f : Fragment) =>
               let '(_, ds1, body, _) := f in
               PyDict.set d ("sql" ++ ds1) (strip (remove_char ";" body)))
            [("First ", "1", "SELECT * FROM orders;", "1");
             (" then ", "2", " SELECT count(*) FROM sql1 ", "2")] []).
Proof.
  apply (parse_sqls_rendered_fragments
           ("First ", "1", "SELECT * FROM orders;", "1")
           [(" then ", "2", " SELECT count(*) FROM sql1 ", "2")] " done.");
    reflexivity.
Defined.

(** ** Text around a fenced block *)

Lemma prefix_other_head :
  forall (o c : ascii) (old s : string),
    c <> o -> prefix (String o old) (String c s) = false.
Proof.
  intros o c old s Hne. cbn [prefix].
  destruct (ascii_dec o c) as [Heq|_]; [|reflexivity].
  exfalso. apply Hne. now symmetry.
Qed.

Lemma contains_after :
  forall sub pre y : string, prefix sub y = true -> contains sub (pre ++ y) = true.
Proof.
  intros sub pre y Hy. induction pre as [|c pre IH].
  - destruct y; cbn [append contains]; now rewrite Hy.
  - change (String c pre ++ y) with (String c (pre ++ y)). cbn [contains].
    rewrite IH. now destruct (prefix sub (String c (pre ++ y))).
Qed.

Lemma findall_fences_skip :
  forall a x : string,
    Fence.findall_fences_from (a ++ x) (String.length a) = Fence.findall_fences_from x 0.
Proof.
  induction a as [|c a IH]; intros x; [reflexivity | exact (IH x)].
Qed.

Lemma findall_fences_before :
  forall pre x : string,
    has_char "`" pre = false ->
    Fence.findall_fences_from (pre ++ x) 0 = Fence.findall_fences_from x 0.
Proof.
  induction pre as [|c pre IH]; intros x Hp; [reflexivity|].
  apply has_char_head in Hp. destruct Hp as [Hc Hp].
  change (String c pre ++ x) with (String c (pre ++ x)).
  cbn [Fence.findall_fences_from]. unfold Fence.match_fence.
  change Fence.fence_open with (String "`" ("``json" ++ nl)).
  rewrite (prefix_other_head "`" c _ _ Hc). now apply IH.
Qed.

Lemma fence_close_not_across :
  forall s x : string,
    s <> EmptyString ->
    prefix Fence.fence_close s = false ->
    prefix Fence.fence_close (s ++ Fence.fence_close ++ x) = false.
Proof.
  intros s x Hne. change Fence.fence_close with (String (ascii_of_nat 10) "```").
  destruct s as [|c [|d [|e [|f r]]]]; [contradiction| | | |];
    cbn [prefix append];
    repeat match goal with
           | |- context [ascii_dec ?a ?b] => destruct (ascii_dec a b)
           end;
    try reflexivity; try discriminate; try (intros _; reflexivity).
  destruct r; intros Hr; discriminate Hr.
Qed.

Lemma lazy_until_body :
  forall body x : string,
    contains Fence.fence_close body = false ->
    Fence.lazy_until Fence.fence_close (body ++ Fence.fence_close ++ x)
    = Some (String.length body).
Proof.
  induction body as [|c body IH]; intros x Hb.
  - cbn [append String.length].
    destruct (Fence.fence_close ++ x) eqn:Hs; cbn [Fence.lazy_until];
      rewrite <- Hs, prefix_app; reflexivity.
  - apply contains_tail in Hb. destruct Hb as [Hhere Hb].
    pose proof (fence_close_not_across (String c body) x
                  ltac:(discriminate) Hhere) as Hacross.
    change (String c body ++ Fence.fence_close ++ x)
      with (String c (body ++ Fence.fence_close ++ x)) in *.
    cbn [Fence.lazy_until String.length].
    rewrite Hacross, (IH x Hb). reflexivity.
Qed.

Lemma json_content_of_fenced :
  forall pre body post : string,
    has_char "`" pre = false ->
    contains Fence.fence_close body = false ->
    has_char "`" post = false ->
    json_content_of (pre ++ Fence.fence_open ++ body ++ Fence.fence_close ++ post)
    = Returned body.
Proof.
  intros pre body post Hpre Hbody Hpost. unfold json_content_of.
  assert (Hmark : contains "```json"
                    (pre ++ Fence.fence_open ++ body ++ Fence.fence_close ++ post) = true).
  { apply contains_after. unfold Fence.fence_open. rewrite append_assoc.
    apply prefix_app. }
  rewrite Hmark. unfold Fence.findall_fences.
  rewrite (findall_fences_before pre _ Hpre).
  assert (Hfence : Fence.match_fence
                     (Fence.fence_open ++ body ++ Fence.fence_close ++ post)
                   = Some (String.length Fence.fence_open + String.length body
                           + String.length Fence.fence_close, body)).
  { unfold Fence.match_fence. rewrite prefix_app, drop_app.
    rewrite (lazy_until_body body post Hbody), take_length_app. reflexivity. }
  change (Fence.fence_open ++ body ++ Fence.fence_close ++ post)
    with (String "`" (("``json" ++ nl) ++ body ++ Fence.fence_close ++ post)) in *.
  cbn [Fence.findall_fences_from]. rewrite Hfence.
  replace (("``json" ++ nl) ++ body ++ Fence.fence_close ++ post)
    with ((("``json" ++ nl) ++ body ++ Fence.fence_close) ++ post)
    by (rewrite !append_assoc; reflexivity).
  replace (String.length Fence.fence_open + String.length body
           + String.length Fence.fence_close - 1)
    with (String.length (("``json" ++ nl) ++ body ++ Fence.fence_close))
    by (rewrite !length_append; simpl; lia).
  rewrite findall_fences_skip.
  rewrite <- (append_empty post), (findall_fences_before post EmptyString Hpost).
  reflexivity.
Qed.

(** X16: the text around a fenced block is not read: a last message made
    of some text, a fenced block and some more text, with no backquote in
    the text before and after the block and a body in which neither the
    marker of a block nor a new line followed by the closing fence occurs,
    is handled exactly as a last message whose content is the body of the
    block. *)
Theorem fenced_block_is_what_is_decoded :
  forall (D : Type) (RS : RemapStore D) (json_loads : string -> Exc Payload)
         (messages messages' : list AgentMessage) (fenced bare : AgentMessage)
         (agent_name : string) (db : D) (can_reask_again : bool)
         (pre body post : string),
    last_item messages = Some fenced ->
    last_item messages' = Some bare ->
    content fenced = pre ++ Fence.fence_open ++ body ++ Fence.fence_close ++ post ->
    content bare = body ->
    has_char "`" pre = false ->
    contains "```json" body = false ->
    contains Fence.fence_close body = false ->
    has_char "`" post = false ->
    parse_rename_and_update_db json_loads messages agent_name db can_reask_again
    = parse_rename_and_update_db json_loads messages' agent_name db can_reask_again.
Proof.
  intros D RS json_loads messages messages' fenced bare agent_name db can
    pre body post Hlast Hlast' Hfenced Hbare Hpre Hmarker Hbody Hpost.
  assert (Hbare_text : json_content_of (content bare) = Returned body).
  { rewrite Hbare. unfold json_content_of. now rewrite Hmarker. }
  assert (Hfenced_text : json_content_of (content fenced) = Returned body)
    by (rewrite Hfenced; now apply json_content_of_fenced).
  unfold parse_rename_and_update_db, decode_content.
  rewrite Hlast, Hlast', Hbare_text, Hfenced_text. cbn [exc_bind].
  destruct (json_loads body) as [payload|[]]; reflexivity.
Qed.

Lemma fenced_block_is_what_is_decoded_witness :
  parse_rename_and_update_db example_json_loads
    [new_message "user"
       ("Here is the remapping:" ++ nl ++ Fence.fence_open ++ scenario_a_text
        ++ Fence.fence_close ++ nl ++ "Both keys are now cust_id.")]
    "SchemaRenamer" shop true
  = parse_rename_and_update_db example_json_loads
      [new_message "user" scenario_a_text] "SchemaRenamer" shop true.
Proof.
  apply (fenced_block_is_what_is_decoded SchemaStore.Store _ example_json_loads
           [new_message "user"
              ("Here is the remapping:" ++ nl ++ Fence.fence_open ++ scenario_a_text
               ++ Fence.fence_close ++ nl ++ "Both keys are now cust_id.")]
           [new_message "user" scenario_a_text]
           (new_message "user"
              ("Here is the remapping:" ++ nl ++ Fence.fence_open ++ scenario_a_text
               ++ Fence.fence_close ++ nl ++ "Both keys are now cust_id."))
           (new_message "user" scenario_a_text)
           "SchemaRenamer" shop true
           ("Here is the remapping:" ++ nl) scenario_a_text
           (nl ++ "Both keys are now cust_id."));
    reflexivity.
Defined.
